(** * Verification of the review-progress aggregation and of the stream
      consumer of the regulatory-submission front end.

    The development embeds two TypeScript components:

    - [SubmissionDetailPage] (the submission detail page: review creation,
      checklist updates and the recomputation of the overall progress,
      approve / reject actions), in [Module Review], with its facts in
      [Module ReviewFacts];
    - [StreamingGenerator] (the server-sent-event consumer: frame parsing,
      event dispatch, phase machine and cancellation), in [Module Stream],
      with its facts in [Module StreamFacts].

    JavaScript values are modelled as follows.  Strings are byte strings
    holding the UTF-8 text of the JavaScript string.  Numbers that the code
    uses as integers (percentages, counts, identifiers) are [Z]; the one
    division of the code is carried out in [Q] and rounded with
    [Math_round].  A field that may be [null] or [undefined] is an
    [option], or [jsnum] where the code distinguishes nothing but
    truthiness.

    What the platform does is taken as follows.  [JSON.parse] is a
    parameter, typed as the source types its result.  [TextDecoder] is any
    machine that handles a byte at a time and keeps its state between
    calls.  A call of [abort] rejects the promise the run awaits with an
    [AbortError]; the handler of a click runs to its end before the
    rejection is delivered, and no read is delivered in between. *)

From Stdlib Require Import ZArith QArith Qround Lqa Lia List Bool.
From Stdlib Require Import Ascii String DecimalString.
Import ListNotations.

Set Implicit Arguments.

(** ** JavaScript primitives used by the two components *)

Module JS.

Local Open Scope Z_scope.

(** [Math.round x]: the nearest integer, a tie going towards +infinity.
    The argument is the exact quotient: for integer operands below 2^52 in
    magnitude the double-precision quotient lies on the same side of every
    half-integer as the exact one, so both round alike. *)
Definition Math_round (x : Q) : Z := Qfloor (x + (1 # 2)).

(** A number-valued field as the server sends it: a number, [null], or no
    key at all. *)
Inductive jsnum : Type :=
| Num (z : Z)
| Null
| Undefined.

(** [v || 0] for a number-valued field. *)
Definition or_zero (v : jsnum) : Z :=
  match v with
  | Num z => z
  | Null | Undefined => 0
  end.

(** Truthiness of a boolean-valued field that may be missing. *)
Definition truthy (b : option bool) : bool :=
  match b with
  | Some true => true
  | _ => false
  end.

(** [a ?? d] *)
Definition nullish {A : Type} (a : option A) (d : A) : A :=
  match a with
  | Some x => x
  | None => d
  end.

(** *** Strings *)

Local Open Scope string_scope.

(** [s.startsWith(p)] *)
Definition startsWith (s p : string) : bool := String.prefix p s.

(** [s.slice(n)]: the string without its first [n] bytes. *)
Fixpoint slice (s : string) (n : nat) {struct n} : string :=
  match n, s with
  | O, _ => s
  | S _, EmptyString => EmptyString
  | S k, String _ r => slice r k
  end.

(** [s.split(sep)] for a separator that is not empty.  The scan goes from
    left to right; [skip] counts the bytes of a separator just matched that
    are still to be passed over, [cur] is the piece being collected. *)
Fixpoint split_go (sep : string) (skip : nat) (cur s : string) : list string :=
  match s with
  | EmptyString => [cur]
  | String c r =>
      match skip with
      | S k => split_go sep k cur r
      | O =>
          if String.prefix sep s
          then cur :: split_go sep (String.length sep - 1) EmptyString r
          else split_go sep 0 (cur ++ String c EmptyString) r
      end
  end.

Definition split (s sep : string) : list string := split_go sep 0 EmptyString s.

(** The white space [trim] removes: the ASCII controls 9 to 13 and the
    space, and, in their UTF-8 encodings, U+00A0, U+1680, U+2000 to U+200A,
    U+2028, U+2029, U+202F, U+205F, U+3000 and U+FEFF.  [ws_head s] is the
    number of bytes of a white-space character at the head of [s], or 0. *)
Definition ws_head (s : string) : nat :=
  match s with
  | EmptyString => 0
  | String a r =>
      let x := N_of_ascii a in
      if ((9 <=? x) && (x <=? 13) || (x =? 32))%N then 1
      else
        match r with
        | EmptyString => 0
        | String b r' =>
            let y := N_of_ascii b in
            if ((x =? 194) && (y =? 160))%N then 2
            else
              match r' with
              | EmptyString => 0
              | String c _ =>
                  let z := N_of_ascii c in
                  if ((x =? 225) && (y =? 154) && (z =? 128)
                      || (x =? 226) && (y =? 128)
                         && ((128 <=? z) && (z <=? 138) || (z =? 168)
                             || (z =? 169) || (z =? 175))
                      || (x =? 226) && (y =? 129) && (z =? 159)
                      || (x =? 227) && (y =? 128) && (z =? 128)
                      || (x =? 239) && (y =? 187) && (z =? 191))%N
                  then 3 else 0
              end
        end
  end.

(** The same test on the reversed string, for the white space at the end. *)
Definition ws_last (r : string) : nat :=
  match r with
  | String c (String b (String a _)) =>
      if (ws_head (String c EmptyString) =? 1)%nat then 1
      else if (ws_head (String b (String c EmptyString)) =? 2)%nat then 2
      else if (ws_head (String a (String b (String c EmptyString))) =? 3)%nat
           then 3 else 0
  | String c (String b EmptyString) =>
      if (ws_head (String c EmptyString) =? 1)%nat then 1
      else if (ws_head (String b (String c EmptyString)) =? 2)%nat then 2
      else 0
  | String c EmptyString => ws_head (String c EmptyString)
  | EmptyString => 0
  end.

Fixpoint strip (test : string -> nat) (fuel : nat) (s : string) : string :=
  match fuel with
  | O => s
  | S f =>
      match test s with
      | O => s
      | n => strip test f (slice s n)
      end
  end.

Fixpoint reverse (s : string) : string :=
  match s with
  | EmptyString => EmptyString
  | String c r => reverse r ++ String c EmptyString
  end.

(** [s.trim()] *)
Definition trim (s : string) : string :=
  let s1 := strip ws_head (String.length s) s in
  reverse (strip ws_last (String.length s1) (reverse s1)).

(** [s || d] for a string. *)
Definition or_else (s d : string) : string :=
  match s with
  | EmptyString => d
  | _ => s
  end.

(** The decimal digits of a non-negative integer, as a template literal
    prints it. *)
Definition digits (n : N) : string :=
  DecimalString.NilZero.string_of_uint (N.to_uint n).

End JS.

(** ** The submission detail page *)

Module Review.

Import JS.
Local Open Scope Z_scope.
Local Open Scope string_scope.

(** One element of [activeReview.checklist]. *)
Record ChecklistItem : Type := {
  id : Z;
  section_number : Z;
  section_name : string;
  is_applicable : option bool;
  is_complete : option bool;
  completeness_percent : jsnum;
  deficiency_level : option string;
  assignee : option string;
  reviewer_notes : option string
}.

(** The object the PATCH of one checklist item answers with ([updated]):
    any subset of the item's keys. *)
Record ItemPatch : Type := {
  p_id : option Z;
  p_section_number : option Z;
  p_section_name : option string;
  p_is_applicable : option (option bool);
  p_is_complete : option (option bool);
  p_completeness_percent : option jsnum;
  p_deficiency_level : option (option string);
  p_assignee : option (option string);
  p_reviewer_notes : option (option string)
}.

(** [{ ...c, ...updated }]: the keys of [updated] win. *)
Definition spread (c : ChecklistItem) (updated : ItemPatch) : ChecklistItem :=
  {| id := nullish (p_id updated) (id c);
     section_number := nullish (p_section_number updated) (section_number c);
     section_name := nullish (p_section_name updated) (section_name c);
     is_applicable := nullish (p_is_applicable updated) (is_applicable c);
     is_complete := nullish (p_is_complete updated) (is_complete c);
     completeness_percent :=
       nullish (p_completeness_percent updated) (completeness_percent c);
     deficiency_level := nullish (p_deficiency_level updated) (deficiency_level c);
     assignee := nullish (p_assignee updated) (assignee c);
     reviewer_notes := nullish (p_reviewer_notes updated) (reviewer_notes c) |}.

(** [newChecklist.filter((c) => c.is_applicable)] *)
Definition applicable (newChecklist : list ChecklistItem) : list ChecklistItem :=
  filter (fun c => truthy (is_applicable c)) newChecklist.

(** The weights that enter the aggregation: the completeness values of the
    applicable items, in order. *)
Definition weights (l : list ChecklistItem) : list Z :=
  map (fun c => or_zero (completeness_percent c)) (applicable l).

(** [applicable.reduce((s, c) => s + (c.completeness_percent || 0), 0)] *)
Definition reduce_sum (l : list ChecklistItem) : Z :=
  fold_left (fun s c => s + or_zero (completeness_percent c)) l 0.

(** The constant [prog] of [handleChecklistUpdate]:
    [applicable.length ? Math.round(sum / applicable.length) : 0]. *)
Definition prog (newChecklist : list ChecklistItem) : Z :=
  let a := applicable newChecklist in
  if (List.length a =? 0)%nat then 0
  else Math_round (inject_Z (reduce_sum a) / inject_Z (Z.of_nat (List.length a))).

(** The arithmetic mean of [completeness_percent] over a list of items, a
    missing value counting as 0: the sum of the values over their number. *)
Definition mean_completeness (l : list ChecklistItem) : Q :=
  inject_Z (fold_right Z.add 0 (map (fun c => or_zero (completeness_percent c)) l))
  / inject_Z (Z.of_nat (List.length l)).

(** An item with another stored [completeness_percent]. *)
Definition with_completeness (c : ChecklistItem) (v : jsnum) : ChecklistItem :=
  {| id := id c;
     section_number := section_number c;
     section_name := section_name c;
     is_applicable := is_applicable c;
     is_complete := is_complete c;
     completeness_percent := v;
     deficiency_level := deficiency_level c;
     assignee := assignee c;
     reviewer_notes := reviewer_notes c |}.

(** *** Page state *)

(** A review as the server returns it: an element of [reviews], or, with
    its checklist, the value of [activeReview]. *)
Record ReviewRecord : Type := {
  rev_id : Z;
  review_round : Z;
  reviewer_name : string;
  status : string;
  overall_progress : option Z;
  checklist : option (list ChecklistItem)
}.

Inductive Tab : Type := tab_overview | tab_documents | tab_checklist | tab_history.

(** The outcome of one [apiFetch]: the parsed answer, or the thrown
    [Error] with its message. *)
Inductive response (A : Type) : Type :=
| Fulfilled (value : A)
| Rejected (message : string).

Arguments Fulfilled {A} value.
Arguments Rejected {A} message.

(** The part of the component state the review workflow reads and writes.
    [submission] records only whether a submission object is loaded. *)
Record Page : Type := {
  submission : bool;
  reviews : list ReviewRecord;
  activeReview : option ReviewRecord;
  tab : Tab;
  error : string;
  loading : bool
}.

(** The state of a freshly mounted page ([useState] initial values). *)
Definition mount : Page :=
  {| submission := false; reviews := []; activeReview := None;
     tab := tab_overview; error := ""; loading := true |}.

(** The requests the review workflow sends. *)
Inductive Request : Type :=
| PostReview (reviewer : string) (round : Z)
| GetReview (review : Z)
| PatchReview (review : Z) (new_status overall_notes : string)
| PatchChecklist (review item : Z).

(** [loadAll], for the submission and review answers: [sub] is whether the
    submission request was fulfilled with an object, [revList] the answer of
    the review list ([null] is [None]), [full] the answer of the request for
    the first review, sent when the list is not empty. *)
Definition loadAll (pg : Page) (sub : response bool)
    (revList : response (option (list ReviewRecord)))
    (full : response ReviewRecord) : Page :=
  let submission' :=
    match sub with Fulfilled v => v | Rejected _ => submission pg end in
  match revList with
  | Fulfilled value =>
      let rvs := nullish value [] in
      match rvs with
      | [] =>
          {| submission := submission'; reviews := rvs;
             activeReview := activeReview pg; tab := tab pg;
             error := error pg; loading := false |}
      | _ :: _ =>
          match full with
          | Fulfilled f =>
              {| submission := submission'; reviews := rvs;
                 activeReview := Some f; tab := tab pg;
                 error := error pg; loading := false |}
          | Rejected message =>
              {| submission := submission'; reviews := rvs;
                 activeReview := activeReview pg; tab := tab pg;
                 error := message; loading := false |}
          end
      end
  | Rejected _ =>
      {| submission := submission'; reviews := reviews pg;
         activeReview := activeReview pg; tab := tab pg;
         error := error pg; loading := false |}
  end.

(** The request [handleCreateReview] opens with:
    [review_round: (reviews.length + 1)]. *)
Definition create_request (pg : Page) : Request :=
  PostReview "Kevin Admin" (Z.of_nat (List.length (reviews pg)) + 1).

(** [handleCreateReview]: [post] answers the POST, [get] the request for
    the created review that follows a fulfilled POST. *)
Definition handleCreateReview (pg : Page) (post get : response ReviewRecord)
  : Page :=
  match post with
  | Rejected message =>
      {| submission := submission pg; reviews := reviews pg;
         activeReview := activeReview pg; tab := tab pg;
         error := message; loading := loading pg |}
  | Fulfilled rev =>
      match get with
      | Rejected message =>
          {| submission := submission pg; reviews := reviews pg;
             activeReview := activeReview pg; tab := tab pg;
             error := message; loading := loading pg |}
      | Fulfilled full =>
          {| submission := submission pg; reviews := reviews pg ++ [rev];
             activeReview := Some full; tab := tab_checklist;
             error := error pg; loading := loading pg |}
      end
  end.

(** [(activeReview.checklist || []).map(c => c.id === itemId ? {...c, ...updated} : c)] *)
Definition newChecklist (r : ReviewRecord) (itemId : Z) (updated : ItemPatch)
  : list ChecklistItem :=
  map (fun c => if (id c =? itemId)%Z then spread c updated else c)
      (nullish (checklist r) []).

(** [handleChecklistUpdate], given the answer of the PATCH. *)
Definition handleChecklistUpdate (pg : Page) (itemId : Z)
    (answer : response ItemPatch) : Page :=
  match activeReview pg with
  | None => pg
  | Some r =>
      match answer with
      | Rejected message =>
          {| submission := submission pg; reviews := reviews pg;
             activeReview := activeReview pg; tab := tab pg;
             error := message; loading := loading pg |}
      | Fulfilled updated =>
          let l := newChecklist r itemId updated in
          {| submission := submission pg; reviews := reviews pg;
             activeReview :=
               Some {| rev_id := rev_id r; review_round := review_round r;
                       reviewer_name := reviewer_name r; status := status r;
                       overall_progress := Some (prog l);
                       checklist := Some l |};
             tab := tab pg; error := error pg; loading := loading pg |}
      end
  end.

(** The buttons of the review workflow. *)
Inductive Button : Type :=
| StartReviewWorkflow      (* overview tab, "Start Review Workflow" *)
| ContinueReview           (* overview tab, "Continue Review" *)
| StartSectionReview       (* checklist tab, "Start 20-Section Review" *)
| ApproveSubmission        (* checklist tab, "Approve Submission" *)
| RequestRevision          (* checklist tab, "Request Revision" *)
| Refresh.                 (* checklist tab, "Refresh" *)

(** The review buttons the page renders, by the conditions of the JSX. *)
Definition rendered (pg : Page) : list Button :=
  if loading pg then []
  else if negb (submission pg) then []
  else
    match tab pg, activeReview pg with
    | tab_overview, None => [StartReviewWorkflow]
    | tab_overview, Some _ => [ContinueReview]
    | tab_checklist, None => [StartSectionReview]
    | tab_checklist, Some _ => [ApproveSubmission; RequestRevision; Refresh]
    | _, _ => []
    end.

(** The request an [onClick] of a rendered button sends first. *)
Definition onClick (pg : Page) (b : Button) : option Request :=
  match b, activeReview pg with
  | StartReviewWorkflow, _ | StartSectionReview, _ => Some (create_request pg)
  | ApproveSubmission, Some r =>
      Some (PatchReview (rev_id r) "approved" "Submission approved after review")
  | RequestRevision, Some r =>
      Some (PatchReview (rev_id r) "rejected"
                        "Revision required - see checklist notes")
  | _, _ => None
  end.

(** Approved and rejected are the two final statuses of a review. *)
Definition is_terminal (s : string) : bool :=
  (s =? "approved") || (s =? "rejected").

(** *** Sample data *)

Definition item (n : Z) (a : bool) (pct : jsnum) : ChecklistItem :=
  {| id := n; section_number := n; section_name := "Section";
     is_applicable := Some a; is_complete := Some false;
     completeness_percent := pct; deficiency_level := None;
     assignee := None; reviewer_notes := None |}.

(** Twenty items: sixteen applicable at 80, one at 100, one at 60, and two
    that are not applicable. *)
Definition checklist_A : list ChecklistItem :=
  map (fun n => item n true (Num 80)) [1; 2; 3; 4; 5; 6; 7; 8; 9; 10; 11; 12; 13; 14; 15; 16]
  ++ [item 17 true (Num 100); item 18 true (Num 60);
      item 19 false (Num 100); item 20 false (Num 0)].

Definition review_1 : ReviewRecord :=
  {| rev_id := 7; review_round := 1; reviewer_name := "Kevin Admin";
     status := "draft"; overall_progress := Some 0;
     checklist := Some checklist_A |}.

(** The page after a load in which the review list holds [review_1] and the
    request for the full review fails. *)
Definition page_unloaded_review : Page :=
  loadAll mount (Fulfilled true) (Fulfilled (Some [review_1]))
          (Rejected "Internal Server Error").

(** The page after a load in which the full review arrives, with the
    checklist tab selected. *)
Definition page_checklist : Page :=
  let pg :=
    loadAll mount (Fulfilled true) (Fulfilled (Some [review_1]))
            (Fulfilled review_1) in
  {| submission := submission pg; reviews := reviews pg;
     activeReview := activeReview pg; tab := tab_checklist;
     error := error pg; loading := loading pg |}.

End Review.

(** ** The stream consumer *)

Module Stream.

Import JS.
Local Open Scope Z_scope.
Local Open Scope string_scope.

(** The [SSEEvent] interface. *)
Module SSEEvent.

Inductive kind : Type := started | progress | chunk | completed | error.

Record t : Type := {
  type : kind;
  message : option string;
  percent : option Z;
  text : option string;
  submission_id : option Z;
  compliance_score : option Z;
  compliant : option bool
}.

End SSEEvent.

Inductive GenerationPhase : Type :=
| idle
| connecting
| running
| completed
| error
| cancelled.

(** The React state of the component, and the number of calls made to the
    two callbacks of its owner. *)
Record State : Type := {
  phase : GenerationPhase;
  percent : Z;
  statusMessage : string;
  streamedText : string;
  complianceScore : option Z;
  isCompliant : option bool;
  errorMessage : string;
  onComplete : nat;
  onCancel : nat
}.

Definition setPhase (p : GenerationPhase) (u : State) : State :=
  {| phase := p; percent := percent u; statusMessage := statusMessage u;
     streamedText := streamedText u; complianceScore := complianceScore u;
     isCompliant := isCompliant u; errorMessage := errorMessage u;
     onComplete := onComplete u; onCancel := onCancel u |}.

Definition setPercent (n : Z) (u : State) : State :=
  {| phase := phase u; percent := n; statusMessage := statusMessage u;
     streamedText := streamedText u; complianceScore := complianceScore u;
     isCompliant := isCompliant u; errorMessage := errorMessage u;
     onComplete := onComplete u; onCancel := onCancel u |}.

Definition setStatusMessage (m : string) (u : State) : State :=
  {| phase := phase u; percent := percent u; statusMessage := m;
     streamedText := streamedText u; complianceScore := complianceScore u;
     isCompliant := isCompliant u; errorMessage := errorMessage u;
     onComplete := onComplete u; onCancel := onCancel u |}.

Definition setStreamedText (f : string -> string) (u : State) : State :=
  {| phase := phase u; percent := percent u; statusMessage := statusMessage u;
     streamedText := f (streamedText u); complianceScore := complianceScore u;
     isCompliant := isCompliant u; errorMessage := errorMessage u;
     onComplete := onComplete u; onCancel := onCancel u |}.

Definition setComplianceScore (v : option Z) (u : State) : State :=
  {| phase := phase u; percent := percent u; statusMessage := statusMessage u;
     streamedText := streamedText u; complianceScore := v;
     isCompliant := isCompliant u; errorMessage := errorMessage u;
     onComplete := onComplete u; onCancel := onCancel u |}.

Definition setIsCompliant (v : option bool) (u : State) : State :=
  {| phase := phase u; percent := percent u; statusMessage := statusMessage u;
     streamedText := streamedText u; complianceScore := complianceScore u;
     isCompliant := v; errorMessage := errorMessage u;
     onComplete := onComplete u; onCancel := onCancel u |}.

Definition setErrorMessage (m : string) (u : State) : State :=
  {| phase := phase u; percent := percent u; statusMessage := statusMessage u;
     streamedText := streamedText u; complianceScore := complianceScore u;
     isCompliant := isCompliant u; errorMessage := m;
     onComplete := onComplete u; onCancel := onCancel u |}.

Definition call_onComplete (u : State) : State :=
  {| phase := phase u; percent := percent u; statusMessage := statusMessage u;
     streamedText := streamedText u; complianceScore := complianceScore u;
     isCompliant := isCompliant u; errorMessage := errorMessage u;
     onComplete := S (onComplete u); onCancel := onCancel u |}.

Definition call_onCancel (u : State) : State :=
  {| phase := phase u; percent := percent u; statusMessage := statusMessage u;
     streamedText := streamedText u; complianceScore := complianceScore u;
     isCompliant := isCompliant u; errorMessage := errorMessage u;
     onComplete := onComplete u; onCancel := S (onCancel u) |}.

(** The state of a mounted component. *)
Definition initial : State :=
  {| phase := idle; percent := 0; statusMessage := ""; streamedText := "";
     complianceScore := None; isCompliant := None; errorMessage := "";
     onComplete := 0; onCancel := 0 |}.

(** [handleEvent] *)
Definition handleEvent (event : SSEEvent.t) (u : State) : State :=
  match SSEEvent.type event with
  | SSEEvent.started =>
      setPercent 2
        (setStatusMessage (nullish (SSEEvent.message event) "Starting…") u)
  | SSEEvent.progress =>
      let u1 :=
        match SSEEvent.percent event with
        | Some n => setPercent n u
        | None => u
        end in
      match SSEEvent.message event with
      | Some (String c m) => setStatusMessage (String c m) u1
      | _ => u1
      end
  | SSEEvent.chunk =>
      match SSEEvent.text event with
      | Some (String c t) => setStreamedText (fun prev => prev ++ String c t) u
      | _ => u
      end
  | SSEEvent.completed =>
      let u1 := setPercent 100 u in
      let u2 := setPhase completed u1 in
      let u3 :=
        setStatusMessage
          (nullish (SSEEvent.message event) "Generation complete!") u2 in
      let u4 :=
        match SSEEvent.compliance_score event with
        | Some n => setComplianceScore (Some n) u3
        | None => u3
        end in
      let u5 :=
        match SSEEvent.compliant event with
        | Some b => setIsCompliant (Some b) u4
        | None => u4
        end in
      call_onComplete u5
  | SSEEvent.error =>
      setErrorMessage
        (nullish (SSEEvent.message event) "An unknown error occurred.")
        (setPhase error u)
  end.

(** [phase === 'running' || phase === 'connecting'] *)
Definition isActive (p : GenerationPhase) : bool :=
  match p with
  | running | connecting => true
  | _ => false
  end.

(** The compliance score the component shows: the banner is rendered when
    [phase === 'completed' && complianceScore !== null]. *)
Definition shown_score (u : State) : option Z :=
  match phase u with
  | completed => complianceScore u
  | _ => None
  end.

(** The statements of the component that write the state, each as one
    action. *)
Inductive action : Type :=
| Begin                          (* startGeneration, the reset before fetch *)
| Running                        (* setPhase('running') *)
| Dispatch (event : SSEEvent.t)  (* handleEvent(event) *)
| CaughtAbort                    (* catch, err.name === 'AbortError' *)
| CaughtError (message : string) (* catch, any other error *)
| Cancel.                        (* handleCancel *)

(** [startGeneration], lines 148 to 154: the reset before the request. *)
Definition startGeneration_reset (u : State) : State :=
  setIsCompliant None
    (setComplianceScore None
      (setErrorMessage ""
        (setStreamedText (fun _ => "")
          (setStatusMessage "Connecting to generation service…"
            (setPercent 0 (setPhase connecting u)))))).

(** [startGeneration], lines 213 to 219: the two branches of the [catch]. *)
Definition catch_abort (u : State) : State :=
  setStatusMessage "Generation cancelled." (setPhase cancelled u).

Definition catch_error (message : string) (u : State) : State :=
  setErrorMessage (or_else message "Unknown error") (setPhase error u).

(** [handleCancel], after the call of [abort]. *)
Definition handleCancel (u : State) : State :=
  call_onCancel (setStatusMessage "Cancelled by user." (setPhase cancelled u)).

Definition perform (a : action) (u : State) : State :=
  match a with
  | Begin => startGeneration_reset u
  | Running => setPhase running u
  | Dispatch event => handleEvent event u
  | CaughtAbort => catch_abort u
  | CaughtError message => catch_error message u
  | Cancel => handleCancel u
  end.

Definition perform_all (acts : list action) (u : State) : State :=
  fold_left (fun v a => perform a v) acts u.

(** [TextDecoder].  The decoder of the Encoding standard handles its input
    one byte at a time and, called with [stream: true], keeps its state (an
    unfinished code point, the byte-order mark already seen) from one call
    of [decode] to the next.  The model takes the decoder as such a machine:
    its states, the state of [new TextDecoder()], and the text the handling
    of one byte adds to the output. *)
Record TextDecoder : Type := {
  decoder_state : Type;
  fresh : decoder_state;
  handle : decoder_state -> ascii -> decoder_state * string
}.

(** [decoder.decode(value, { stream: true })] *)
Fixpoint decode (D : TextDecoder) (d : decoder_state D) (value : string)
  : decoder_state D * string :=
  match value with
  | EmptyString => (d, "")
  | String b r =>
      let (d1, s1) := handle D d b in
      let (d2, s2) := decode D d1 r in
      (d2, s1 ++ s2)
  end.

(** What happens to a run from outside: the two buttons, and the ways the
    awaited [fetch] and [reader.read()] settle.  [ReadValue] carries the
    bytes of one read. *)
Inductive input : Type :=
| ClickGenerate
| ClickCancel
| FetchResolved (ok : bool) (status : N) (statusText : string) (body : bool)
| FetchRejected (message : string)
| ReadValue (value : string)
| ReadDone
| ReadRejected (message : string).

Definition newline : string := String "010"%char "".
Definition blank_line : string := newline ++ newline.

Section Parser.

Variable D : TextDecoder.

(** [JSON.parse], with the [SSEEvent] type the code gives its result:
    [None] when it throws.  A payload that parses to a value outside that
    type is not modelled. *)
Variable JSON_parse : string -> option SSEEvent.t.

(** What the asynchronous body of [startGeneration] is waiting for; while
    it reads, the state of its decoder and its buffer.  A cancelled or
    failed run, and a run whose stream is done, have ended. *)
Inductive task : Type :=
| NotStarted
| AwaitFetch
| AwaitRead (decoder : decoder_state D) (buffer : string)
| Ended.

Record Consumer : Type := {
  ui : State;
  pending : task
}.

Definition init : Consumer := {| ui := initial; pending := NotStarted |}.

(** One line of a frame, lines 197 to 206: the event it carries, if any. *)
Definition line_event (line : string) : option SSEEvent.t :=
  if negb (startsWith line "data: ") then None
  else
    let raw := trim (slice line (String.length "data: ")) in
    match raw with
    | EmptyString => None
    | _ => JSON_parse raw
    end.

(** The events of one frame, in the order of its lines. *)
Definition part_events (part : string) : list SSEEvent.t :=
  flat_map (fun line =>
              match line_event line with
              | Some event => [event]
              | None => []
              end)
           (split part newline).

(** Lines 190 to 210, for the decoded text of one read: the events handed
    to [handleEvent], in order, and the new buffer. *)
Definition receive (buffer text : string) : list SSEEvent.t * string :=
  let parts := split (buffer ++ text) blank_line in
  (flat_map part_events (removelast parts), last parts "").

(** One turn of the read loop, lines 187 to 210. *)
Definition turn (d : decoder_state D) (buffer value : string)
  : list SSEEvent.t * (decoder_state D * string) :=
  let (d', text) := decode D d value in
  let (events, buffer') := receive buffer text in
  (events, (d', buffer')).

(** The read loop over successive reads: all events handed to
    [handleEvent], and the decoder and the buffer at the end. *)
Fixpoint drain (d : decoder_state D) (buffer : string) (reads : list string)
  : list SSEEvent.t * (decoder_state D * string) :=
  match reads with
  | [] => ([], (d, buffer))
  | value :: rest =>
      let '(events, (d', buffer')) := turn d buffer value in
      let (events', final) := drain d' buffer' rest in
      ((events ++ events')%list, final)
  end.

(** The actions an input triggers, and what the run awaits next.  An input
    the run cannot receive in its state (a button that is not rendered, a
    promise that is not awaited) triggers nothing.  The Generate button is
    rendered in phase idle, the Cancel button while [isActive]; a click on
    Cancel runs [handleCancel], whose [abort] makes the awaited [fetch] or
    [read] reject, so that the [catch] follows and the run ends. *)
Definition react (c : Consumer) (i : input) : list action * task :=
  match i, pending c with
  | ClickGenerate, t =>
      match phase (ui c) with
      | idle => ([Begin], AwaitFetch)
      | _ => ([], t)
      end
  | ClickCancel, t =>
      if isActive (phase (ui c)) then
        match t with
        | AwaitFetch | AwaitRead _ _ => ([Cancel; CaughtAbort], Ended)
        | _ => ([Cancel], t)
        end
      else ([], t)
  | FetchResolved ok status statusText body, AwaitFetch =>
      if negb ok then
        ([CaughtError ("Server returned " ++ digits status ++ ": " ++ statusText)],
         Ended)
      else if negb body then
        ([CaughtError "Response has no readable body"], Ended)
      else ([Running], AwaitRead (fresh D) "")
  | FetchRejected message, AwaitFetch => ([CaughtError message], Ended)
  | ReadValue value, AwaitRead d buffer =>
      let '(events, (d', buffer')) := turn d buffer value in
      (map Dispatch events, AwaitRead d' buffer')
  | ReadDone, AwaitRead _ _ => ([], Ended)
  | ReadRejected message, AwaitRead _ _ => ([CaughtError message], Ended)
  | _, t => ([], t)
  end.

Definition step (c : Consumer) (i : input) : Consumer :=
  {| ui := perform_all (fst (react c i)) (ui c);
     pending := snd (react c i) |}.

Fixpoint run (c : Consumer) (ins : list input) : Consumer :=
  match ins with
  | [] => c
  | i :: rest => run (step c i) rest
  end.

(** The phase before and after each action. *)
Fixpoint transitions (u : State) (acts : list action)
  : list (GenerationPhase * action * GenerationPhase) :=
  match acts with
  | [] => []
  | a :: rest => (phase u, a, phase (perform a u)) :: transitions (perform a u) rest
  end.

(** All actions of a run, with the phase before and after each. *)
Fixpoint trace (c : Consumer) (ins : list input)
  : list (GenerationPhase * action * GenerationPhase) :=
  match ins with
  | [] => []
  | i :: rest =>
      (transitions (ui c) (fst (react c i)) ++ trace (step c i) rest)%list
  end.

(** The phases in which the read loop runs: running, and completed or
    error once an event of that type has been handled. *)
Definition reading (p : GenerationPhase) : bool :=
  match p with
  | running | completed | error => true
  | _ => false
  end.

(** The phase agrees with what the run awaits. *)
Definition coherent (c : Consumer) : Prop :=
  match pending c with
  | AwaitFetch => phase (ui c) = connecting
  | AwaitRead _ _ => reading (phase (ui c)) = true
  | NotStarted | Ended => True
  end.

End Parser.

Arguments NotStarted {D}.
Arguments AwaitFetch {D}.
Arguments AwaitRead {D} decoder buffer.
Arguments Ended {D}.

(** The frames of a text and what is left after the last blank line:
    [split] at blank lines, with the last piece apart.  [cur] is the
    beginning of the frame being read. *)
Fixpoint frames (cur s : string) : list string * string :=
  match s with
  | EmptyString => ([], cur)
  | String c r =>
      match r with
      | EmptyString => ([], cur ++ String c "")
      | String d r' =>
          if (c =? "010")%char && (d =? "010")%char then
            let (ps, t) := frames "" r' in (cur :: ps, t)
          else frames (cur ++ String c "") r
      end
  end.



(** A text without a line break. *)
Fixpoint one_line (s : string) : bool :=
  match s with
  | EmptyString => true
  | String c r => negb (c =? "010")%char && one_line r
  end.

(** The transitions of the phase machine as the specification lists them:
    the phase before, the action, the phase after. *)
Inductive listed : GenerationPhase -> action -> GenerationPhase -> Prop :=
| listed_start : listed idle Begin connecting
| listed_response : listed connecting Running running
| listed_completed event :
    SSEEvent.type event = SSEEvent.completed ->
    listed running (Dispatch event) completed
| listed_error event :
    SSEEvent.type event = SSEEvent.error ->
    listed running (Dispatch event) error
| listed_failure message : listed running (CaughtError message) error
| listed_cancel p : isActive p = true -> listed p Cancel cancelled.

(** The same, with the failure of the request itself. *)
Inductive allowed : GenerationPhase -> action -> GenerationPhase -> Prop :=
| allowed_listed p a q : listed p a q -> allowed p a q
| allowed_refused message : allowed connecting (CaughtError message) error.

(** The text of a chunk event, and nothing for any other event. *)
Definition chunk_text (event : SSEEvent.t) : string :=
  match SSEEvent.type event with
  | SSEEvent.chunk => nullish (SSEEvent.text event) ""
  | _ => ""
  end.

(** *** Sample events and streams *)

Definition event (k : SSEEvent.kind) : SSEEvent.t :=
  {| SSEEvent.type := k; SSEEvent.message := None; SSEEvent.percent := None;
     SSEEvent.text := None; SSEEvent.submission_id := None;
     SSEEvent.compliance_score := None; SSEEvent.compliant := None |}.

Definition started_event : SSEEvent.t := event SSEEvent.started.

Definition progress_event (n : Z) : SSEEvent.t :=
  {| SSEEvent.type := SSEEvent.progress; SSEEvent.message := None;
     SSEEvent.percent := Some n; SSEEvent.text := None;
     SSEEvent.submission_id := None; SSEEvent.compliance_score := None;
     SSEEvent.compliant := None |}.

Definition chunk_event (t : string) : SSEEvent.t :=
  {| SSEEvent.type := SSEEvent.chunk; SSEEvent.message := None;
     SSEEvent.percent := None; SSEEvent.text := Some t;
     SSEEvent.submission_id := None; SSEEvent.compliance_score := None;
     SSEEvent.compliant := None |}.

Definition completed_event (score : Z) (ok : bool) : SSEEvent.t :=
  {| SSEEvent.type := SSEEvent.completed; SSEEvent.message := None;
     SSEEvent.percent := Some 100; SSEEvent.text := None;
     SSEEvent.submission_id := None; SSEEvent.compliance_score := Some score;
     SSEEvent.compliant := Some ok |}.

(** The run of scenario B. *)
Definition scenario_B : list SSEEvent.t :=
  [started_event; progress_event 25; chunk_event "Sec"; chunk_event "tion 1";
   chunk_event "..."; completed_event 92 true].

(** A JSON string literal and a JSON object with one or two members. *)
Definition quoted (s : string) : string :=
  String "034"%char s ++ String "034"%char "".

Definition json_started : string :=
  "{" ++ quoted "type" ++ ":" ++ quoted "started" ++ "}".

Definition json_chunk (t : string) : string :=
  "{" ++ quoted "type" ++ ":" ++ quoted "chunk" ++ ","
      ++ quoted "text" ++ ":" ++ quoted t ++ "}".

Definition json_completed : string :=
  "{" ++ quoted "type" ++ ":" ++ quoted "completed" ++ ","
      ++ quoted "percent" ++ ":100,"
      ++ quoted "compliance_score" ++ ":92,"
      ++ quoted "compliant" ++ ":true}".

(** A parser that agrees with [JSON.parse] on the payloads of the sample
    streams: it reads the three objects above and rejects the rest. *)
Definition sample_parse (raw : string) : option SSEEvent.t :=
  if raw =? json_started then Some started_event
  else if raw =? json_chunk "Sec" then Some (chunk_event "Sec")
  else if raw =? json_chunk "tion 1" then Some (chunk_event "tion 1")
  else if raw =? json_completed then Some (completed_event 92 true)
  else None.

Definition frame (payload : string) : string := "data: " ++ payload ++ blank_line.

(** A decoder that agrees with [TextDecoder] on ASCII input: every byte
    is a character. *)
Definition ascii_decoder : TextDecoder :=
  {| decoder_state := unit;
     fresh := tt;
     handle := fun d b => (d, String b "") |}.

(** The run of scenario C up to the click: started has been handled. *)
Definition after_started : Consumer ascii_decoder :=
  run sample_parse (init ascii_decoder)
      [ClickGenerate; FetchResolved true 200 "OK" true;
       ReadValue (frame json_started)].

(** A frame whose payload is not JSON. *)
Definition bad_payload : string := "{not json".

End Stream.

From Stdlib Require Import Permutation.

(** ** More of the submission detail page *)

Module Detail.

Import JS Review.
Local Open Scope Z_scope.
Local Open Scope string_scope.

(** [progressColor] *)
Definition progressColor (pct : Z) : string :=
  if (pct =? 0)%Z then "#ef4444"
  else if (pct <? 26)%Z then "#f97316"
  else if (pct <? 51)%Z then "#eab308"
  else if (pct <? 76)%Z then "#84cc16"
  else if (pct <? 100)%Z then "#22c55e"
  else "#16a34a".

(** Line 158, the progress of the page header and of the Continue Review
    button: [activeReview?.overall_progress ?? submission.progress_percent ?? 0],
    where [progress_percent] is the field of the loaded submission. *)
Definition progress (pg : Page) (progress_percent : option Z) : Z :=
  match activeReview pg with
  | Some r =>
      match overall_progress r with
      | Some v => v
      | None => nullish progress_percent 0
      end
  | None => nullish progress_percent 0
  end.

(** Line 362, the progress of the checklist card:
    [activeReview.overall_progress || 0]. *)
Definition card_progress (r : ReviewRecord) : Z :=
  match overall_progress r with
  | Some v => if (v =? 0)%Z then 0 else v
  | None => 0
  end.

(** [{ ...c, assignee: value }] and [{ ...c, reviewer_notes: value }] *)
Definition with_assignee (c : ChecklistItem) (value : string) : ChecklistItem :=
  {| id := id c;
     section_number := section_number c;
     section_name := section_name c;
     is_applicable := is_applicable c;
     is_complete := is_complete c;
     completeness_percent := completeness_percent c;
     deficiency_level := deficiency_level c;
     assignee := Some value;
     reviewer_notes := reviewer_notes c |}.

Definition with_reviewer_notes (c : ChecklistItem) (value : string)
  : ChecklistItem :=
  {| id := id c;
     section_number := section_number c;
     section_name := section_name c;
     is_applicable := is_applicable c;
     is_complete := is_complete c;
     completeness_percent := completeness_percent c;
     deficiency_level := deficiency_level c;
     assignee := assignee c;
     reviewer_notes := Some value |}.

(** [setActiveReview(prev => ({ ...prev, checklist: newChecklist }))] *)
Definition set_checklist (pg : Page) (l : list ChecklistItem) : Page :=
  match activeReview pg with
  | None => pg
  | Some r =>
      {| submission := submission pg; reviews := reviews pg;
         activeReview :=
           Some {| rev_id := rev_id r; review_round := review_round r;
                   reviewer_name := reviewer_name r; status := status r;
                   overall_progress := overall_progress r;
                   checklist := Some l |};
         tab := tab pg; error := error pg; loading := loading pg |}
  end.

(** The [onChange] of the assignee field of an item, lines 408 to 411. *)
Definition change_assignee (pg : Page) (itemId : Z) (value : string) : Page :=
  match activeReview pg with
  | None => pg
  | Some r =>
      set_checklist pg
        (map (fun c => if (id c =? itemId)%Z then with_assignee c value else c)
             (nullish (checklist r) []))
  end.

(** The [onChange] of the notes field of an item, lines 416 to 419. *)
Definition change_notes (pg : Page) (itemId : Z) (value : string) : Page :=
  match activeReview pg with
  | None => pg
  | Some r =>
      set_checklist pg
        (map (fun c => if (id c =? itemId)%Z then with_reviewer_notes c value
                       else c)
             (nullish (checklist r) []))
  end.

(** [setTab(t)] and [setError('')] *)
Definition setTab (pg : Page) (t : Tab) : Page :=
  {| submission := submission pg; reviews := reviews pg;
     activeReview := activeReview pg; tab := t;
     error := error pg; loading := loading pg |}.

Definition dismiss_error (pg : Page) : Page :=
  {| submission := submission pg; reviews := reviews pg;
     activeReview := activeReview pg; tab := tab pg;
     error := ""; loading := loading pg |}.

(** What can happen to the page: the handlers of the review workflow, each
    with the answers its requests get.  [apply] runs a handler whether or
    not its control is rendered. *)
Inductive operation : Type :=
| Load (sub : response bool) (revList : response (option (list ReviewRecord)))
       (full : response ReviewRecord)
| CreateReview (post get : response ReviewRecord)
| UpdateItem (itemId : Z) (answer : response ItemPatch)
| ChangeAssignee (itemId : Z) (value : string)
| ChangeNotes (itemId : Z) (value : string)
| SelectTab (t : Tab)
| DismissError.

Definition apply (pg : Page) (o : operation) : Page :=
  match o with
  | Load sub revList full => loadAll pg sub revList full
  | CreateReview post get => handleCreateReview pg post get
  | UpdateItem itemId answer => handleChecklistUpdate pg itemId answer
  | ChangeAssignee itemId value => change_assignee pg itemId value
  | ChangeNotes itemId value => change_notes pg itemId value
  | SelectTab t => setTab pg t
  | DismissError => dismiss_error pg
  end.

Definition apply_all (pg : Page) (os : list operation) : Page :=
  fold_left apply os pg.



(** *** Documents *)

(** An element of [documents]. *)
Record Document : Type := {
  doc_id : Z;
  filename : string;
  document_type : string;
  file_size : option Z;
  ai_reviewed : bool;
  ai_review_summary : option string
}.

(** [{ ...d, ai_reviewed: true, ai_review_summary: result.summary }] *)
Definition reviewed (d : Document) (summary : option string) : Document :=
  {| doc_id := doc_id d; filename := filename d;
     document_type := document_type d; file_size := file_size d;
     ai_reviewed := true; ai_review_summary := summary |}.

(** [handleAiReview]: the documents and the error afterwards; [answer] is
    the answer of the request, [result.summary] when it is fulfilled. *)
Definition handleAiReview (documents : list Document) (error : string)
    (docId : Z) (answer : response (option string))
  : list Document * string :=
  match answer with
  | Fulfilled summary =>
      (map (fun d => if (doc_id d =? docId)%Z then reviewed d summary else d)
           documents,
       error)
  | Rejected message => (documents, message)
  end.

(** [handleUpload]: [file] is whether a file was chosen, [answer] the
    answer of the upload (rejected with 'Upload failed' when the response
    is not ok). *)
Definition handleUpload (documents : list Document) (error : string)
    (file : bool) (answer : response Document) : list Document * string :=
  if negb file then (documents, error)
  else
    match answer with
    | Fulfilled doc => ((documents ++ [doc])%list, error)
    | Rejected message => (documents, message)
    end.


(** What happens to the documents of the page: an upload or an AI review,
    each with the answer it gets. *)
Inductive doc_operation : Type :=
| Upload (file : bool) (answer : response Document)
| AiReview (docId : Z) (answer : response (option string)).

Definition doc_apply (s : list Document * string) (o : doc_operation)
  : list Document * string :=
  match o with
  | Upload file answer => handleUpload (fst s) (snd s) file answer
  | AiReview docId answer => handleAiReview (fst s) (snd s) docId answer
  end.

Definition doc_apply_all (s : list Document * string)
    (os : list doc_operation) : list Document * string :=
  fold_left doc_apply os s.

(** The documents that the uploads of a list of operations answer with. *)
Definition uploaded (os : list doc_operation) : list Document :=
  flat_map (fun o => match o with
                     | Upload true (Fulfilled doc) => [doc]
                     | _ => []
                     end) os.

(** *** Sample data *)



End Detail.

(** ** More of the stream consumer *)

Module Generator.

Import JS Stream.
Local Open Scope Z_scope.
Local Open Scope string_scope.

(** [ProgressBar]: [Math.min(100, Math.max(0, percent))] and the class of
    the bar. *)
Definition clampedPercent (percent : Z) : Z := Z.min 100 (Z.max 0 percent).

Definition colorClass (percent : Z) : string :=
  if (clampedPercent percent =? 100)%Z then "bg-green-500"
  else if (clampedPercent percent >=? 70)%Z then "bg-blue-500"
  else "bg-indigo-500".

(** The action buttons of the component, by the conditions of the JSX. *)
Inductive Control : Type :=
| GenerateButton      (* phase === 'idle' *)
| CancelButton        (* isActive *)
| RegenerateButton    (* phase === 'completed' *)
| RetryButton.        (* phase === 'error' || phase === 'cancelled' *)

Definition controls (p : GenerationPhase) : list Control :=
  ((match p with idle => [GenerateButton] | _ => [] end)
   ++ (if isActive p then [CancelButton] else [])
   ++ (match p with
       | completed => [RegenerateButton]
       | error | cancelled => [RetryButton]
       | _ => []
       end))%list.

(** The inputs with which the awaited request or read fails: the request
    is rejected, the response is not ok or has no body, the read is
    rejected. *)
Definition fails {D : TextDecoder} (t : task D) (i : input) : bool :=
  match i, t with
  | FetchRejected _, AwaitFetch => true
  | FetchResolved ok _ _ body, AwaitFetch => negb (ok && body)
  | ReadRejected _, AwaitRead _ _ => true
  | _, _ => false
  end.

Definition is_cancel (i : input) : bool :=
  match i with
  | ClickCancel => true
  | _ => false
  end.

(** The number of calls of [handleEvent] with a completed event among the
    actions of a run. *)
Definition completions
    (t : list (GenerationPhase * action * GenerationPhase)) : nat :=
  List.length
    (filter (fun x =>
               match snd (fst x) with
               | Dispatch event =>
                   match SSEEvent.type event with
                   | SSEEvent.completed => true
                   | _ => false
                   end
               | _ => false
               end) t).

(** The calls of [onCancel] a phase stands for. *)
Definition cancelled_calls (p : GenerationPhase) : nat :=
  match p with
  | cancelled => 1
  | _ => 0
  end.

(** A string of [n] spaces. *)
Fixpoint spaces (n : nat) : string :=
  match n with
  | O => ""
  | S k => String " " (spaces k)
  end.

End Generator.

(** ** The dashboard and the submission card *)

Module Dashboard.

Import JS.
Local Open Scope Z_scope.
Local Open Scope string_scope.

(** The fields of a [Submission] that the dashboard and the card read. *)
Record Submission : Type := {
  id : Z;
  status : string;
  compliance_status : string;
  progress_percent : jsnum
}.

Record AdverseEvent : Type := {
  event_id : Z;
  risk_score : Z
}.

(** [submissions.filter((s) => s.status === value).length] *)
Definition with_status (submissions : list Submission) (value : string) : nat :=
  List.length (filter (fun s => status s =? value) submissions).

(** The constant [stats] of [Home]. *)
Record Stats : Type := {
  total : nat;
  draft : nat;
  generating : nat;
  reviewPending : nat;
  approved : nat;
  highRiskEvents : nat
}.

Definition stats (submissions : list Submission)
    (adverseEvents : list AdverseEvent) : Stats :=
  {| total := List.length submissions;
     draft := with_status submissions "draft";
     generating := with_status submissions "generating";
     reviewPending := with_status submissions "review_pending";
     approved := with_status submissions "approved";
     highRiskEvents := List.length adverseEvents |}.

(** The submissions that no tile of a status counts. *)
Definition uncounted (submissions : list Submission) : list Submission :=
  filter (fun s => negb ((status s =? "draft") || (status s =? "generating")
                         || (status s =? "review_pending")
                         || (status s =? "approved")))
         submissions.

(** [s.replace('_', ' ')]: the first underscore becomes a space. *)
Fixpoint replace_underscore (s : string) : string :=
  match s with
  | EmptyString => EmptyString
  | String c r =>
      if (c =? "_")%char then String " " r
      else String c (replace_underscore r)
  end.

(** [s.replace(/_/g, ' ')]: every underscore becomes a space. *)
Fixpoint replace_underscores (s : string) : string :=
  match s with
  | EmptyString => EmptyString
  | String c r =>
      String (if (c =? "_")%char then " "%char else c) (replace_underscores r)
  end.

Fixpoint underscores (s : string) : nat :=
  match s with
  | EmptyString => 0
  | String c r => ((if (c =? "_")%char then 1 else 0) + underscores r)%nat
  end.

Section Labels.

(** [String.prototype.toUpperCase] *)
Variable toUpperCase : string -> string.

(** The status badge of [SubmissionCard]:
    [submission.status.replace('_', ' ').toUpperCase()]. *)
Definition card_label (s : string) : string :=
  toUpperCase (replace_underscore s).

(** The status badge of the detail page:
    [submission.status?.replace(/_/g, ' ').toUpperCase()], for a status
    that is present. *)
Definition page_label (s : string) : string :=
  toUpperCase (replace_underscores s).

End Labels.

(** [SubmissionCard]: [progress_percent || 0] and the colour of the bar. *)
Definition card_progress (s : Submission) : Z := or_zero (progress_percent s).

Definition card_progressColor (progress : Z) : string :=
  if (progress =? 0)%Z then "#ef4444"
  else if (progress <? 26)%Z then "#f97316"
  else if (progress <? 51)%Z then "#eab308"
  else if (progress <? 76)%Z then "#84cc16"
  else if (progress <? 100)%Z then "#22c55e"
  else "#16a34a".

End Dashboard.

(** ** The submission form *)

Module Submit.

Import JS Review.
Local Open Scope string_scope.

(** [formData]: the keys of the object with their values, in the order of
    the keys. *)
Definition FormData : Type := list (string * string).

(** The initial value of [formData]. *)
Definition empty_form : FormData :=
  [("submission_type", "510k"); ("device_name", "");
   ("device_description", ""); ("manufacturer", "");
   ("indications_for_use", ""); ("predicate_device_name", "");
   ("predicate_k_number", "")].

(** [formData[name]] *)
Fixpoint get (fd : FormData) (name : string) : option string :=
  match fd with
  | [] => None
  | (k, v) :: rest => if k =? name then Some v else get rest name
  end.

(** [{ ...prev, [name]: value }]: the value of an existing key is replaced
    in place, a new key comes last. *)
Fixpoint spread_with (prev : FormData) (name value : string) : FormData :=
  match prev with
  | [] => [(name, value)]
  | (k, v) :: rest =>
      if k =? name then (k, value) :: rest
      else (k, v) :: spread_with rest name value
  end.

Record State : Type := {
  formData : FormData;
  generating : bool;
  error : option string
}.

Definition initial : State :=
  {| formData := empty_form; generating := false; error := None |}.

(** [handleChange], for the [name] and [value] of the changed control. *)
Definition handleChange (st : State) (name value : string) : State :=
  {| formData := spread_with (formData st) name value;
     generating := generating st;
     error := error st |}.

(** The changes of a list, applied in order. *)
Definition typing (st : State) (changes : list (string * string)) : State :=
  fold_left (fun s c => handleChange s (fst c) (snd c)) changes st.

(** The value typed last for a field, if any was. *)
Fixpoint typed_last (changes : list (string * string)) (name : string)
  : option string :=
  match changes with
  | [] => None
  | (k, v) :: rest =>
      match typed_last rest name with
      | Some w => Some w
      | None => if k =? name then Some v else None
      end
  end.

(** [handleSubmit]: [create] answers [createSubmission] with the id of the
    new submission, [generate] answers [generateSubmission], called after a
    fulfilled creation.  The result is the state and the id of the
    submission the router is sent to, if it is. *)
Definition handleSubmit (st : State) (create : response Z)
    (generate : response unit) : State * option Z :=
  match create with
  | Rejected message =>
      ({| formData := formData st; generating := false;
          error := Some (or_else message "Failed to create submission") |},
       None)
  | Fulfilled submission_id =>
      match generate with
      | Rejected message =>
          ({| formData := formData st; generating := false;
              error := Some (or_else message "Failed to create submission") |},
           None)
      | Fulfilled _ =>
          ({| formData := formData st; generating := true; error := None |},
           Some submission_id)
      end
  end.

(** [!value] for a field of the form: a missing field and the empty string
    are falsy. *)
Definition falsy (value : option string) : bool :=
  match value with
  | Some (String _ _) => false
  | _ => true
  end.

(** The submit button: [disabled={generating || !formData.device_name}]. *)
Definition submit_disabled (st : State) : bool :=
  generating st || falsy (get (formData st) "device_name").

End Submit.

(** ** The compliance checker *)

Module Compliance.

Import JS Review.
Local Open Scope Z_scope.
Local Open Scope string_scope.

(** The fields of the answer of a check that the component reads. *)
Record Result : Type := {
  score : Z;
  compliance_status : string
}.

Record State : Type := {
  loading : bool;
  result : option Result;
  error : option string
}.

Definition initial : State :=
  {| loading := false; result := None; error := None |}.

(** [runComplianceCheck], given the answer of [checkCompliance]. *)
Definition runComplianceCheck (st : State) (answer : response Result) : State :=
  match answer with
  | Fulfilled data => {| loading := false; result := Some data; error := None |}
  | Rejected message =>
      {| loading := false; result := result st;
         error := Some (or_else message "Failed to run compliance check") |}
  end.

Definition runs (st : State) (answers : list (response Result)) : State :=
  fold_left runComplianceCheck answers st.

(** The data of the last fulfilled answer. *)
Fixpoint last_fulfilled (answers : list (response Result)) : option Result :=
  match answers with
  | [] => None
  | a :: rest =>
      match last_fulfilled rest with
      | Some d => Some d
      | None => match a with Fulfilled d => Some d | Rejected _ => None end
      end
  end.

(** The class of the score: green from 90, yellow from 75, red below. *)
Definition score_class (s : Z) : string :=
  if (s >=? 90)%Z then "text-green-600"
  else if (s >=? 75)%Z then "text-yellow-600"
  else "text-red-600".

(** The buttons: Run Compliance Check while there is no result, Rerun
    Check once there is one. *)
Inductive Button : Type := RunCheck | RerunCheck.

Definition buttons (st : State) : list Button :=
  match result st with
  | None => [RunCheck]
  | Some _ => [RerunCheck]
  end.

End Compliance.

(** * Facts about the submission detail page *)

Module ReviewFacts.

Import JS Review.
Local Open Scope Z_scope.

(** [Math_round] returns the integer within one half of its argument, the
    upper one at a tie. *)
Lemma Math_round_bounds (x : Q) :
  (inject_Z (Math_round x) - (1 # 2) <= x
   /\ x < inject_Z (Math_round x) + (1 # 2))%Q.
Proof.
  unfold Math_round.
  pose proof (Qfloor_le (x + (1 # 2))) as Hlo.
  pose proof (Qlt_floor (x + (1 # 2))) as Hhi.
  rewrite inject_Z_plus in Hhi. change (inject_Z 1) with 1%Q in Hhi.
  split; lra.
Qed.

Lemma Math_round_unique (x : Q) (r : Z) :
  (inject_Z r - (1 # 2) <= x)%Q -> (x < inject_Z r + (1 # 2))%Q ->
  Math_round x = r.
Proof.
  intros Hlo Hhi.
  destruct (Math_round_bounds x) as [Mlo Mhi].
  assert (H1 : (inject_Z (Math_round x) < inject_Z (r + 1))%Q)
    by (rewrite inject_Z_plus; change (inject_Z 1) with 1%Q; lra).
  assert (H2 : (inject_Z r < inject_Z (Math_round x + 1))%Q)
    by (rewrite inject_Z_plus; change (inject_Z 1) with 1%Q; lra).
  rewrite <- Zlt_Qlt in H1, H2.
  lia.
Qed.

Lemma fold_left_add_shift (l : list ChecklistItem) (k : Z) :
  fold_left (fun s c => s + or_zero (completeness_percent c)) l k
  = k + fold_right Z.add 0 (map (fun c => or_zero (completeness_percent c)) l).
Proof.
  revert k.
  induction l as [|c l IH]; intros k; simpl.
  - lia.
  - rewrite IH. lia.
Qed.

Lemma reduce_sum_weights (l : list ChecklistItem) :
  reduce_sum l
  = fold_right Z.add 0 (map (fun c => or_zero (completeness_percent c)) l).
Proof.
  unfold reduce_sum. rewrite fold_left_add_shift. lia.
Qed.

(** [prog] reads a checklist through its weights only. *)
Lemma prog_weights (l : list ChecklistItem) :
  prog l =
  if (List.length (weights l) =? 0)%nat then 0
  else Math_round (inject_Z (fold_right Z.add 0 (weights l))
                   / inject_Z (Z.of_nat (List.length (weights l)))).
Proof.
  unfold prog, weights.
  rewrite reduce_sum_weights, length_map.
  reflexivity.
Qed.

Lemma prog_same_weights (l l' : list ChecklistItem) :
  weights l = weights l' -> prog l = prog l'.
Proof.
  intros H. rewrite !prog_weights, H. reflexivity.
Qed.

Lemma weights_app (l1 l2 : list ChecklistItem) :
  weights (l1 ++ l2) = weights l1 ++ weights l2.
Proof.
  unfold weights, applicable. rewrite filter_app, map_app. reflexivity.
Qed.

Lemma prog_mean (items : list ChecklistItem) :
  applicable items <> [] ->
  prog items = Math_round (mean_completeness (applicable items)).
Proof.
  intros Hne. unfold prog, mean_completeness.
  destruct (applicable items) as [|c a] eqn:E; [contradiction|].
  rewrite reduce_sum_weights. reflexivity.
Qed.

(** C1.  The recomputed progress keeps the items whose [is_applicable] is
    true; it is 0 when none is left, and otherwise the integer nearest to the
    arithmetic mean of their [completeness_percent], a tie going up: the one
    integer [r] with [r - 1/2 <= mean < r + 1/2].  Eighteen applicable items
    whose values sum to 1440 give 80. *)
Theorem C1_prog_is_rounded_mean (items : list ChecklistItem) :
  let kept := filter (fun c => truthy (is_applicable c)) items in
  (kept = [] -> prog items = 0)
  /\ (kept <> [] ->
      forall r : Z,
        prog items = r <->
        (inject_Z r - (1 # 2) <= mean_completeness kept
         /\ mean_completeness kept < inject_Z r + (1 # 2))%Q)
  /\ (List.length kept = 18%nat ->
      fold_right Z.add 0 (map (fun c => or_zero (completeness_percent c)) kept)
      = 1440 ->
      prog items = 80).
Proof.
  intros kept. fold (applicable items) in kept.
  split; [|split].
  - intros E. unfold prog. subst kept. rewrite E. reflexivity.
  - intros Hne r. subst kept. rewrite (prog_mean _ Hne). split.
    + intros <-. apply Math_round_bounds.
    + intros [Hlo Hhi]. apply Math_round_unique; assumption.
  - intros Hlen Hsum. subst kept. unfold prog.
    rewrite reduce_sum_weights, Hsum, Hlen. reflexivity.
Qed.

(** Scenario A: twenty items, eighteen of them applicable with values that
    sum to 1440. *)
Lemma C1_scenario_A :
  List.length checklist_A = 20%nat
  /\ List.length (applicable checklist_A) = 18%nat
  /\ prog checklist_A = 80.
Proof.
  split; [reflexivity|]. split; [reflexivity|].
  apply (proj2 (proj2 (C1_prog_is_rounded_mean checklist_A))); reflexivity.
Defined.

(** A mean that ends in one half goes up: 0 and 1 average to 1, and 100,
    0 and 50 to 50. *)
Example prog_tie_goes_up :
  prog [item 1 true (Num 0); item 2 true (Num 1)] = 1
  /\ prog [item 1 true (Num 100); item 2 true (Num 0); item 3 true (Num 50)] = 50
  /\ prog [item 1 false (Num 100)] = 0.
Proof. repeat split. Qed.

(** C7.  An item whose [is_applicable] is false does not enter the
    aggregation: storing any other [completeness_percent] in it leaves the
    recomputed progress unchanged. *)
Theorem C7_excluded_item_ignored
    (before after : list ChecklistItem) (c : ChecklistItem) (v : jsnum) :
  is_applicable c = Some false ->
  prog (before ++ with_completeness c v :: after) = prog (before ++ c :: after).
Proof.
  intros Hc. apply prog_same_weights.
  rewrite !weights_app. f_equal.
  change (with_completeness c v :: after) with ([with_completeness c v] ++ after).
  change (c :: after) with ([c] ++ after).
  rewrite !weights_app. f_equal.
  unfold weights, applicable. simpl. rewrite Hc. reflexivity.
Qed.

Lemma C7_witness :
  prog (firstn 18 checklist_A
        ++ with_completeness (item 19 false (Num 100)) (Num 0)
        :: [item 20 false (Num 0)])
  = prog (firstn 18 checklist_A
          ++ item 19 false (Num 100) :: [item 20 false (Num 0)]).
Proof.
  apply (@C7_excluded_item_ignored
           (firstn 18 checklist_A) [item 20 false (Num 0)]
           (item 19 false (Num 100)) (Num 0)).
  reflexivity.
Defined.

(** C10.  A [completeness_percent] that is [null] or missing counts as 0:
    the recomputed progress is the one obtained with 0 stored in the item. *)
Theorem C10_missing_percent_counts_as_zero
    (before after : list ChecklistItem) (c : ChecklistItem) :
  completeness_percent c = Null \/ completeness_percent c = Undefined ->
  prog (before ++ c :: after)
  = prog (before ++ with_completeness c (Num 0) :: after).
Proof.
  intros Hc. apply prog_same_weights.
  rewrite !weights_app. f_equal.
  change (with_completeness c (Num 0) :: after)
    with ([with_completeness c (Num 0)] ++ after).
  change (c :: after) with ([c] ++ after).
  rewrite !weights_app. f_equal.
  unfold weights, applicable. simpl.
  destruct (truthy (is_applicable c)); [|reflexivity].
  simpl. destruct Hc as [-> | ->]; reflexivity.
Qed.

Lemma C10_witness :
  prog ([item 1 true (Num 100)] ++ item 2 true Null :: [item 3 true (Num 50)])
  = 50
  /\ prog ([item 1 true (Num 100)] ++ item 2 true Null :: [item 3 true (Num 50)])
     = prog ([item 1 true (Num 100)]
             ++ with_completeness (item 2 true Null) (Num 0)
             :: [item 3 true (Num 50)]).
Proof.
  split; [reflexivity|].
  apply (@C10_missing_percent_counts_as_zero
           [item 1 true (Num 100)] [item 3 true (Num 50)] (item 2 true Null)).
  left. reflexivity.
Defined.

(** A checklist update leaves the status of the review as it is and
    stores the recomputed progress. *)
Lemma handleChecklistUpdate_review (pg : Page) (r : ReviewRecord)
    (itemId : Z) (answer : response ItemPatch) :
  activeReview pg = Some r ->
  exists r',
    activeReview (handleChecklistUpdate pg itemId answer) = Some r'
    /\ status r' = status r
    /\ forall updated, answer = Fulfilled updated ->
         overall_progress r' = Some (prog (newChecklist r itemId updated)).
Proof.
  intros Hr. unfold handleChecklistUpdate. rewrite Hr.
  destruct answer as [updated | message]; simpl.
  - eexists. split; [reflexivity|]. split; [reflexivity|].
    intros u [= <-]. reflexivity.
  - exists r. split; [reflexivity|]. split; [reflexivity|].
    intros u [=].
Qed.

(** C8.  With a review loaded and the checklist tab shown, the page offers
    both the approval and the rejection of the review, whatever its status
    and its overall progress are, and the request each sends carries the
    final status; a checklist update, which recomputes the progress, never
    changes the status of the review. *)
Theorem C8_approval_not_gated_by_progress (pg : Page) (r : ReviewRecord) :
  loading pg = false -> submission pg = true ->
  tab pg = tab_checklist -> activeReview pg = Some r ->
  In ApproveSubmission (rendered pg)
  /\ In RequestRevision (rendered pg)
  /\ onClick pg ApproveSubmission
     = Some (PatchReview (rev_id r) "approved" "Submission approved after review")
  /\ onClick pg RequestRevision
     = Some (PatchReview (rev_id r) "rejected"
                         "Revision required - see checklist notes")
  /\ forall itemId answer,
       exists r',
         activeReview (handleChecklistUpdate pg itemId answer) = Some r'
         /\ status r' = status r.
Proof.
  intros Hl Hs Ht Hr.
  unfold rendered, onClick. rewrite Hl, Hs, Ht, Hr. simpl.
  repeat split; auto.
  intros itemId answer.
  destruct (handleChecklistUpdate_review pg itemId answer Hr) as (r' & H1 & H2 & _).
  exists r'. split; assumption.
Qed.

(** The sample review is a draft at progress 0; completing its item 3 to
    100 moves the progress and leaves it a draft. *)
Lemma C8_witness :
  (In ApproveSubmission (rendered page_checklist)
   /\ In RequestRevision (rendered page_checklist)
   /\ onClick page_checklist ApproveSubmission
      = Some (PatchReview 7 "approved" "Submission approved after review")
   /\ onClick page_checklist RequestRevision
      = Some (PatchReview 7 "rejected" "Revision required - see checklist notes")
   /\ forall itemId answer,
        exists r',
          activeReview (handleChecklistUpdate page_checklist itemId answer)
          = Some r'
          /\ status r' = "draft"%string)
  /\ is_terminal (status review_1) = false.
Proof.
  split; [|reflexivity].
  apply (@C8_approval_not_gated_by_progress page_checklist review_1);
    reflexivity.
Defined.

(** The claim C9 fails on the page: after a load in which the request for
    the full review failed, the list holds a draft review, no review is
    active, and the page offers to start a review, whose request asks for
    round 2. *)
Lemma C9_counterexample :
  reviews page_unloaded_review = [review_1]
  /\ is_terminal (status review_1) = false
  /\ In StartReviewWorkflow (rendered page_unloaded_review)
  /\ onClick page_unloaded_review StartReviewWorkflow
     = Some (PostReview "Kevin Admin" 2).
Proof.
  repeat split; simpl; auto.
Qed.

(** C9, amended.  The page offers to start a review only while no review is
    active; the request asks for the round that is one more than the number
    of reviews in the list; and a creation that completes appends the
    created review to the list and makes the full review active, so that the
    page no longer offers a creation and a later request would ask for the
    next round. *)
Theorem C9_round_is_count_plus_one (pg : Page) :
  (forall b, In b (rendered pg) ->
             b = StartReviewWorkflow \/ b = StartSectionReview ->
             activeReview pg = None
             /\ onClick pg b
                = Some (PostReview "Kevin Admin"
                                   (Z.of_nat (List.length (reviews pg)) + 1)))
  /\ (forall rev full,
        let pg' := handleCreateReview pg (Fulfilled rev) (Fulfilled full) in
        reviews pg' = reviews pg ++ [rev]
        /\ activeReview pg' = Some full
        /\ ~ In StartReviewWorkflow (rendered pg')
        /\ ~ In StartSectionReview (rendered pg')
        /\ create_request pg'
           = PostReview "Kevin Admin"
                        (Z.of_nat (List.length (reviews pg)) + 2)).
Proof.
  split.
  - intros b Hb Hstart. unfold rendered in Hb.
    destruct (loading pg); [contradiction|].
    destruct (submission pg); [|contradiction].
    destruct (tab pg), (activeReview pg) as [r|] eqn:E; simpl in Hb;
      destruct Hstart as [-> | ->];
      repeat (destruct Hb as [Hb | Hb]; try discriminate Hb);
      try contradiction; split; reflexivity.
  - intros rev full pg'. subst pg'. simpl.
    split; [reflexivity|]. split; [reflexivity|].
    assert (Hr : forall b, In b (rendered
                (handleCreateReview pg (Fulfilled rev) (Fulfilled full))) ->
                b <> StartReviewWorkflow /\ b <> StartSectionReview).
    { intros b Hb. unfold rendered in Hb. simpl in Hb.
      destruct (loading pg); [contradiction|].
      destruct (submission pg); [|contradiction].
      simpl in Hb.
      repeat (destruct Hb as [<- | Hb]; [split; discriminate|]).
      contradiction. }
    split; [intros H; apply Hr in H; tauto|].
    split; [intros H; apply Hr in H; tauto|].
    unfold create_request. simpl. rewrite length_app. simpl.
    f_equal. lia.
Qed.

End ReviewFacts.


(** * Facts about the stream consumer *)

Module StreamFacts.

Import JS Stream.
Local Open Scope string_scope.

(** *** Strings *)

Lemma append_nil_r (s : string) : s ++ "" = s.
Proof. induction s as [|c s IH]; simpl; [|rewrite IH]; reflexivity. Qed.

Lemma append_assoc (a b c : string) : (a ++ b) ++ c = a ++ b ++ c.
Proof. induction a as [|x a IH]; simpl; [|rewrite IH]; reflexivity. Qed.

Lemma append_snoc (a : string) (c : ascii) (b : string) :
  (a ++ String c "") ++ b = a ++ String c b.
Proof. rewrite append_assoc. reflexivity. Qed.

Lemma concat_cons (v : string) (l : list string) :
  concat "" (v :: l) = v ++ concat "" l.
Proof.
  destruct l as [|w l]; simpl; [rewrite append_nil_r|]; reflexivity.
Qed.

(** *** Splitting at blank lines *)

Lemma frames_other (cur : string) (c : ascii) (s : string) :
  (c =? "010")%char = false ->
  frames cur (String c s) = frames (cur ++ String c "") s.
Proof.
  intros Hc. destruct s as [|d s]; simpl; [reflexivity|].
  rewrite Hc. reflexivity.
Qed.


Lemma prefix_blank_one (c : ascii) :
  String.prefix blank_line (String c "") = false.
Proof.
  cbn -[ascii_dec]. destruct (ascii_dec "010" c); reflexivity.
Qed.

Lemma prefix_blank_two (c d : ascii) (s : string) :
  String.prefix blank_line (String c (String d s))
  = (c =? "010")%char && (d =? "010")%char.
Proof.
  cbn -[ascii_dec Ascii.eqb].
  destruct (ascii_dec "010" c) as [<-|Hc].
  - destruct (ascii_dec "010" d) as [<-|Hd]; [destruct s; reflexivity|].
    apply not_eq_sym, Ascii.eqb_neq in Hd. rewrite Hd. reflexivity.
  - apply not_eq_sym, Ascii.eqb_neq in Hc. rewrite Hc. reflexivity.
Qed.

Lemma split_go_scan (sep cur : string) (c : ascii) (r : string) :
  split_go sep 0 cur (String c r)
  = if String.prefix sep (String c r)
    then cur :: split_go sep (String.length sep - 1) "" r
    else split_go sep 0 (cur ++ String c "") r.
Proof. reflexivity. Qed.

Lemma split_go_skip (sep : string) (k : nat) (cur : string) (c : ascii)
    (r : string) :
  split_go sep (S k) cur (String c r) = split_go sep k cur r.
Proof. reflexivity. Qed.

Lemma frames_two (cur : string) (c d : ascii) (r : string) :
  frames cur (String c (String d r))
  = if (c =? "010")%char && (d =? "010")%char
    then (cur :: fst (frames "" r), snd (frames "" r))
    else frames (cur ++ String c "") (String d r).
Proof.
  cbn [frames]. destruct (frames "" r). reflexivity.
Qed.

(** [split] at blank lines is [frames] with the last piece put back. *)
Lemma split_go_frames (n : nat) :
  forall s cur, (String.length s <= n)%nat ->
    split_go blank_line 0 cur s
    = (fst (frames cur s) ++ [snd (frames cur s)])%list.
Proof.
  induction n as [|n IH]; intros s cur Hn.
  - destruct s; [reflexivity | simpl in Hn; lia].
  - destruct s as [|c [|d s]]; [reflexivity | |].
    + rewrite split_go_scan, prefix_blank_one. reflexivity.
    + rewrite split_go_scan, prefix_blank_two, frames_two.
      destruct ((c =? "010")%char && (d =? "010")%char) eqn:E.
      * change (String.length blank_line - 1)%nat with 1%nat.
        rewrite split_go_skip, IH by (simpl in Hn; lia).
        reflexivity.
      * rewrite IH by (simpl in Hn |- *; lia). reflexivity.
Qed.

Lemma removelast_snoc {A : Type} (l : list A) (x : A) :
  removelast (l ++ [x]) = l.
Proof. apply removelast_last. Qed.

Lemma last_snoc {A : Type} (l : list A) (x d : A) : last (l ++ [x]) d = x.
Proof. apply last_last. Qed.









Lemma prefix_newline (c : ascii) (r : string) :
  String.prefix newline (String c r) = (c =? "010")%char.
Proof.
  cbn -[ascii_dec Ascii.eqb].
  destruct (ascii_dec "010" c) as [<-|Hc]; [destruct r; reflexivity|].
  apply not_eq_sym, Ascii.eqb_neq in Hc. rewrite Hc. reflexivity.
Qed.

Lemma split_one_line (f : string) :
  one_line f = true ->
  forall cur, split_go newline 0 cur f = [cur ++ f].
Proof.
  induction f as [|c f IH]; intros H1 cur.
  - rewrite append_nil_r. reflexivity.
  - simpl in H1. apply andb_prop in H1. destruct H1 as [Hc Hf].
    apply negb_true_iff in Hc.
    rewrite split_go_scan, prefix_newline, Hc, (IH Hf), append_snoc.
    reflexivity.
Qed.


Section WithParser.

Variable D : TextDecoder.
Variable JSON_parse : string -> option SSEEvent.t.

Local Abbreviation receive := (Stream.receive JSON_parse).
Local Abbreviation turn := (@Stream.turn D JSON_parse).
Local Abbreviation drain := (@Stream.drain D JSON_parse).
Local Abbreviation run := (@Stream.run D JSON_parse).
Local Abbreviation step := (@Stream.step D JSON_parse).
Local Abbreviation trace := (@Stream.trace D JSON_parse).
Local Abbreviation react := (@Stream.react D JSON_parse).
Local Abbreviation part_events := (Stream.part_events JSON_parse).
Local Abbreviation line_event := (Stream.line_event JSON_parse).

(** *** The read loop *)

Lemma receive_frames (b v : string) :
  receive b v
  = (flat_map part_events (fst (frames "" (b ++ v))), snd (frames "" (b ++ v))).
Proof.
  unfold Stream.receive, split.
  rewrite (split_go_frames (n := String.length (b ++ v))) by lia.
  rewrite removelast_snoc, last_snoc. reflexivity.
Qed.



Lemma turn_receive (d : decoder_state D) (b v : string) :
  turn d b v
  = (fst (receive b (snd (decode D d v))),
     (fst (decode D d v), snd (receive b (snd (decode D d v))))).
Proof.
  unfold Stream.turn. destruct (decode D d v) as [d' text]. cbn [fst snd].
  destruct (receive b text). reflexivity.
Qed.


Lemma drain_one (d : decoder_state D) (b v : string) :
  drain d b [v] = turn d b v.
Proof.
  cbn [Stream.drain]. destruct (turn d b v) as [e [d' b']].
  rewrite app_nil_r. reflexivity.
Qed.



Lemma step_read (u : State) (d : decoder_state D) (b v : string) :
  step {| ui := u; pending := AwaitRead d b |} (ReadValue v)
  = {| ui := perform_all (map Dispatch (fst (turn d b v))) u;
       pending := AwaitRead (fst (snd (turn d b v))) (snd (snd (turn d b v))) |}.
Proof.
  unfold Stream.step, Stream.react. cbn [pending ui].
  destruct (turn d b v) as [e [d' b']]. reflexivity.
Qed.



(** *** Frames that do not parse *)






(** *** Cancellation *)

Lemma step_total (c : Consumer D) (i : input) :
  react c i = ([], pending c) -> step c i = c.
Proof.
  intros H. unfold Stream.step. rewrite H. destruct c. reflexivity.
Qed.

(** A cancelled run whose task has ended reacts to nothing. *)
Lemma react_cancelled (c : Consumer D) (i : input) :
  phase (ui c) = cancelled ->
  pending c = Ended \/ pending c = NotStarted ->
  react c i = ([], pending c).
Proof.
  intros Hp Ht. unfold Stream.react. rewrite Hp.
  destruct Ht as [-> | ->]; destruct i; reflexivity.
Qed.

Lemma run_cancelled (ins : list input) (c : Consumer D) :
  phase (ui c) = cancelled ->
  pending c = Ended \/ pending c = NotStarted ->
  run c ins = c /\ trace c ins = [].
Proof.
  intros Hp Ht.
  induction ins as [|i ins IH]; [split; reflexivity|].
  cbn [Stream.run Stream.trace].
  rewrite (step_total c i (react_cancelled c i Hp Ht)).
  rewrite (react_cancelled c i Hp Ht). exact IH.
Qed.

Lemma step_cancel (c : Consumer D) :
  isActive (phase (ui c)) = true ->
  phase (ui (step c ClickCancel)) = cancelled
  /\ (pending (step c ClickCancel) = Ended
      \/ pending (step c ClickCancel) = NotStarted)
  /\ streamedText (ui (step c ClickCancel)) = streamedText (ui c).
Proof.
  intros Ha. unfold Stream.step, Stream.react. rewrite Ha.
  destruct (pending c); simpl; auto.
Qed.

(** C2.  A click on Cancel while the run is connecting or running puts the
    consumer in the cancelled phase at once and ends the run: whatever
    arrives afterwards, no action is performed, so no chunk is added to the
    accumulated text and no completed event changes the phase. *)
Theorem C2_cancel_ends_the_run (c : Consumer D) (ins : list input) :
  isActive (phase (ui c)) = true ->
  let c' := step c ClickCancel in
  phase (ui c') = cancelled
  /\ trace c' ins = []
  /\ run c' ins = c'
  /\ phase (ui (run c' ins)) = cancelled
  /\ streamedText (ui (run c' ins)) = streamedText (ui c).
Proof.
  intros Ha c'.
  destruct (step_cancel c Ha) as (Hp & Ht & Hs). fold c' in Hp, Ht, Hs.
  destruct (run_cancelled ins c' Hp Ht) as [Hr Htr].
  rewrite Hr. auto.
Qed.

(** *** Accumulated text *)

Lemma streamedText_handleEvent (event : SSEEvent.t) (u : State) :
  streamedText (handleEvent event u) = streamedText u ++ chunk_text event.
Proof.
  unfold handleEvent, chunk_text.
  destruct event as [k m p t sid cs cp]; cbn [SSEEvent.type SSEEvent.text
    SSEEvent.message SSEEvent.percent SSEEvent.compliance_score
    SSEEvent.compliant].
  destruct k.
  - simpl. rewrite append_nil_r. reflexivity.
  - destruct p, m as [[|? ?]|]; simpl; rewrite append_nil_r; reflexivity.
  - destruct t as [[|? ?]|]; simpl; try rewrite append_nil_r; reflexivity.
  - destruct cs, cp; simpl; rewrite append_nil_r; reflexivity.
  - simpl. rewrite append_nil_r. reflexivity.
Qed.

(** *** Phases *)

Lemma phase_handleEvent (event : SSEEvent.t) (u : State) :
  phase (handleEvent event u)
  = match SSEEvent.type event with
    | SSEEvent.completed => completed
    | SSEEvent.error => error
    | _ => phase u
    end.
Proof.
  unfold handleEvent.
  destruct event as [k m p t sid cs cp]; cbn [SSEEvent.type SSEEvent.text
    SSEEvent.message SSEEvent.percent SSEEvent.compliance_score
    SSEEvent.compliant].
  destruct k.
  - reflexivity.
  - destruct p, m as [[|? ?]|]; reflexivity.
  - destruct t as [[|? ?]|]; reflexivity.
  - destruct cs, cp; reflexivity.
  - reflexivity.
Qed.

Lemma reading_handleEvent (event : SSEEvent.t) (u : State) :
  reading (phase u) = true -> reading (phase (handleEvent event u)) = true.
Proof.
  intros H. rewrite phase_handleEvent.
  destruct (SSEEvent.type event); auto.
Qed.

Lemma reading_dispatch (events : list SSEEvent.t) :
  forall u, reading (phase u) = true ->
            reading (phase (perform_all (map Dispatch events) u)) = true.
Proof.
  induction events as [|e events IH]; intros u H; [exact H|].
  apply IH. apply reading_handleEvent, H.
Qed.

Lemma coherent_init : coherent (init D).
Proof. reflexivity. Qed.

Lemma coherent_step (c : Consumer D) (i : input) :
  coherent c -> coherent (step c i).
Proof.
  unfold coherent, Stream.step, Stream.react.
  destruct c as [u t]. cbn [ui pending]. intros H.
  destruct i as [ | | ok status statusText body | message | value | | message].
  - destruct (phase u) eqn:E; cbn [fst snd]; try reflexivity;
      destruct t; first [exact I | cbn; rewrite E; exact H | exact H].
  - destruct (isActive (phase u)) eqn:E; [|destruct t; exact H].
    destruct t; exact I.
  - destruct t; try exact H.
    destruct ok, body; cbn; try exact I; reflexivity.
  - destruct t; try exact H. exact I.
  - destruct t; try exact H.
    destruct (turn decoder buffer value) as [events [d' b']] eqn:E.
    cbn [fst snd].
    apply reading_dispatch, H.
  - destruct t; try exact H. exact I.
  - destruct t; try exact H. exact I.
Qed.

Lemma transitions_dispatch (events : list SSEEvent.t) :
  forall u p a q,
    reading (phase u) = true ->
    In (p, a, q) (transitions u (map Dispatch events)) ->
    p <> q -> p <> completed -> p <> error -> allowed p a q.
Proof.
  induction events as [|e events IH]; intros u p a q Hu Hin Hpq Hc He;
    [contradiction|].
  cbn [map transitions] in Hin. destruct Hin as [Heq | Hin].
  - injection Heq as <- <- <-. apply allowed_listed.
    cbn [perform] in Hpq |- *. rewrite phase_handleEvent in Hpq |- *.
    destruct (phase u) eqn:E; try discriminate Hu; try contradiction.
    destruct (SSEEvent.type e) eqn:T; try contradiction.
    + apply listed_completed, T.
    + apply listed_error, T.
  - apply (IH (perform (Dispatch e) u)); auto.
    apply reading_handleEvent, Hu.
Qed.

Lemma transitions_react (c : Consumer D) (i : input) :
  coherent c ->
  forall p a q,
    In (p, a, q) (transitions (ui c) (fst (react c i))) ->
    p <> q -> p <> completed -> p <> error -> allowed p a q.
Proof.
  unfold coherent, Stream.react.
  destruct c as [u t]. cbn [ui pending]. intros H p a q Hin Hpq Hc He.
  destruct i as [ | | ok status statusText body | message | value | | message].
  - destruct (phase u) eqn:E; try contradiction.
    destruct Hin as [Heq | []]. injection Heq as <- <- <-.
    rewrite E. apply allowed_listed, listed_start.
  - destruct (isActive (phase u)) eqn:Ea; [|contradiction].
    assert (Hin' : In (p, a, q) (transitions u [Cancel; CaughtAbort])).
    { destruct t; cbn in Hin |- *; tauto. }
    cbn in Hin'. destruct Hin' as [Heq | [Heq | []]].
    + injection Heq as <- <- <-. apply allowed_listed, listed_cancel, Ea.
    + injection Heq as <- <- <-. contradiction.
  - destruct t; try contradiction.
    destruct ok, body; cbn in Hin; destruct Hin as [Heq | []];
      injection Heq as <- <- <-; rewrite H.
    + apply allowed_listed, listed_response.
    + apply allowed_refused.
    + apply allowed_refused.
    + apply allowed_refused.
  - destruct t; try contradiction.
    destruct Hin as [Heq | []]. injection Heq as <- <- <-.
    rewrite H. apply allowed_refused.
  - destruct t; try contradiction.
    destruct (turn decoder buffer value) as [events [d' b']] eqn:E.
    cbn [fst] in Hin.
    apply (transitions_dispatch events u); assumption.
  - destruct t; contradiction.
  - destruct t; try contradiction.
    destruct Hin as [Heq | []]. injection Heq as <- <- <-.
    cbn in Hpq |- *. destruct (phase u) eqn:E; try discriminate H;
      try contradiction.
    apply allowed_listed, listed_failure.
Qed.

Lemma trace_allowed (ins : list input) :
  forall c, coherent c ->
  forall p a q,
    In (p, a, q) (trace c ins) ->
    p <> q -> p <> completed -> p <> error -> allowed p a q.
Proof.
  induction ins as [|i ins IH]; intros c Hc p a q Hin Hpq H1 H2;
    [contradiction|].
  cbn [Stream.trace] in Hin. apply in_app_or in Hin.
  destruct Hin as [Hin | Hin].
  - apply (transitions_react c i Hc); assumption.
  - apply (IH (step c i) (coherent_step c i Hc)); assumption.
Qed.

(** C5, amended.  The phase is one of idle, connecting, running,
    completed, error and cancelled, and a run starts in idle.  Every change
    of phase that a run makes out of idle, connecting, running or cancelled
    is one of: idle to connecting on the start request; connecting to
    running on a successful response; connecting to error when the request
    fails or the response is refused; running to completed on a completed
    event; running to error on an error event or a failure of the
    transport; connecting or running to cancelled on the Cancel button.
    No change leaves cancelled. *)
Theorem C5_phase_changes_are_allowed
    (ins : list input) (p : GenerationPhase) (a : action) (q : GenerationPhase) :
  In (p, a, q) (trace (init D) ins) ->
  p <> q -> p <> completed -> p <> error ->
  phase (ui (init D)) = idle /\ allowed p a q /\ p <> cancelled.
Proof.
  intros Hin Hpq H1 H2.
  assert (Ha : allowed p a q)
    by (eapply trace_allowed; eauto using coherent_init).
  split; [reflexivity|]. split; [exact Ha|].
  intros ->. inversion Ha as [? ? ? Hl | ]; subst.
  inversion Hl; subst. discriminate.
Qed.

End WithParser.

(** C4.  The accumulated text after any sequence of events is the text
    before it followed by the texts of the chunk events, in the order of
    the events.  After the events of scenario B the phase is completed, the
    text reads "Section 1..." and the score shown is 92. *)
Theorem C4_text_is_the_chunks_in_order (events : list SSEEvent.t) (u : State) :
  streamedText (perform_all (map Dispatch events) u)
  = streamedText u ++ concat "" (map chunk_text events)
  /\ (let v := perform_all (map Dispatch scenario_B)
                           (perform Running (perform Begin initial)) in
      phase v = completed
      /\ streamedText v = "Section 1..."
      /\ shown_score v = Some 92%Z).
Proof.
  split; [|repeat split].
  revert u. induction events as [|e events IH]; intros u.
  - simpl. rewrite append_nil_r. reflexivity.
  - cbn [map]. rewrite concat_cons.
    change (perform_all (Dispatch e :: map Dispatch events) u)
      with (perform_all (map Dispatch events) (handleEvent e u)).
    rewrite IH, streamedText_handleEvent, append_assoc. reflexivity.
Qed.

(** *** The sample run *)

Lemma C2_witness :
  isActive (phase (ui after_started)) = true
  /\ (let c' := step sample_parse after_started ClickCancel in
      let ins := [ReadValue (frame (json_chunk "Sec") ++ frame json_completed);
                  ReadDone] in
      phase (ui c') = cancelled
      /\ trace sample_parse c' ins = []
      /\ run sample_parse c' ins = c'
      /\ phase (ui (run sample_parse c' ins)) = cancelled
      /\ streamedText (ui (run sample_parse c' ins))
         = streamedText (ui after_started)).
Proof.
  split; [reflexivity|].
  apply (@C2_cancel_ends_the_run ascii_decoder sample_parse after_started).
  reflexivity.
Defined.

(** The claim C5 fails on the consumer: a response that is not ok takes the
    phase from connecting to error, a change the claim does not list. *)
Lemma C5_counterexample :
  In (connecting, CaughtError "Server returned 500: Internal Server Error", error)
     (trace sample_parse (init ascii_decoder)
            [ClickGenerate;
             FetchResolved false 500 "Internal Server Error" true])
  /\ ~ listed connecting
              (CaughtError "Server returned 500: Internal Server Error") error.
Proof.
  split.
  - right. left. reflexivity.
  - intros H. inversion H.
Qed.

Lemma C5_witness :
  phase (ui (init ascii_decoder)) = idle
  /\ allowed running (Dispatch (completed_event 92 true)) completed
  /\ running <> cancelled.
Proof.
  apply (@C5_phase_changes_are_allowed ascii_decoder sample_parse
           [ClickGenerate; FetchResolved true 200 "OK" true;
            ReadValue (frame json_completed)]
           running (Dispatch (completed_event 92 true)) completed).
  - right. right. left. reflexivity.
  - discriminate.
  - discriminate.
  - discriminate.
Defined.


(** The sample stream in two reads that cut a frame: the events come out
    in order, the frame that is not JSON is passed over, and the text is
    the concatenation of the chunks. *)
Example sample_stream_in_two_reads :
  let c :=
    run sample_parse (init ascii_decoder)
        [ClickGenerate; FetchResolved true 200 "OK" true;
         ReadValue (frame json_started ++ "data: " ++ json_chunk "Sec");
         ReadValue (blank_line ++ frame bad_payload
                    ++ frame (json_chunk "tion 1") ++ frame json_completed)] in
  phase (ui c) = completed
  /\ streamedText (ui c) = "Section 1"
  /\ shown_score (ui c) = Some 92%Z
  /\ pending c = @AwaitRead ascii_decoder tt "".
Proof. repeat split. Qed.

(** The read loop has no exit on a completed or an error event: it goes
    on reading, and an error event that follows a completed one changes
    the phase again. *)
Remark completed_then_error :
  let u := perform_all
             [Dispatch (completed_event 92 true); Dispatch (event SSEEvent.error)]
             (perform Running (perform Begin initial)) in
  phase u = error
  /\ forall D P d b v,
       exists d' b',
         pending (@step D P {| ui := u; pending := AwaitRead d b |} (ReadValue v))
         = AwaitRead d' b'.
Proof.
  split; [reflexivity|].
  intros D P d b v. rewrite step_read. eexists. eexists. reflexivity.
Qed.

End StreamFacts.

(** * More facts about the submission detail page *)

Module DetailFacts.

Import JS Review Detail ReviewFacts.
Local Open Scope Z_scope.

(** *** The recomputed progress as a function of the checklist *)

Lemma Math_round_monotone (x y : Q) :
  (x <= y)%Q -> Math_round x <= Math_round y.
Proof.
  intros H. unfold Math_round. apply Qfloor_resp_le.
  apply Qplus_le_l. exact H.
Qed.

Lemma mean_le (s s' n : Z) :
  0 < n -> s <= s' -> (inject_Z s / inject_Z n <= inject_Z s' / inject_Z n)%Q.
Proof.
  intros Hn Hs. unfold Qdiv. apply Qmult_le_compat_r.
  - rewrite <- Zle_Qle. exact Hs.
  - apply Qinv_le_0_compat. change 0%Q with (inject_Z 0).
    rewrite <- Zle_Qle. lia.
Qed.

Lemma Math_round_integer (z : Z) : Math_round (inject_Z z) = z.
Proof.
  apply Math_round_unique; lra.
Qed.

Lemma mean_constant (k n : Z) :
  0 < n -> (inject_Z (n * k) / inject_Z n == inject_Z k)%Q.
Proof.
  intros Hn. rewrite inject_Z_mult. field.
  intros H. unfold Qeq in H. simpl in H. lia.
Qed.

Lemma sum_bounds (lo hi : Z) (w : list Z) :
  Forall (fun x => lo <= x <= hi) w ->
  Z.of_nat (List.length w) * lo <= fold_right Z.add 0 w
  <= Z.of_nat (List.length w) * hi.
Proof.
  induction 1 as [|x w Hx Hw IH]; [simpl; lia|].
  cbn [List.length fold_right]. lia.
Qed.

Lemma weights_Forall (P : Z -> Prop) (items : list ChecklistItem) :
  (forall c, In c items -> truthy (is_applicable c) = true ->
             P (or_zero (completeness_percent c))) ->
  Forall P (weights items).
Proof.
  intros H. unfold weights, applicable.
  apply Forall_forall. intros x Hx.
  apply in_map_iff in Hx. destruct Hx as (c & <- & Hc).
  apply filter_In in Hc. destruct Hc as [Hin Ha]. apply H; assumption.
Qed.

Lemma round_mean_bounds (lo hi s n : Z) :
  0 < n -> n * lo <= s <= n * hi ->
  lo <= Math_round (inject_Z s / inject_Z n) <= hi.
Proof.
  intros Hn [Hlo Hhi]. split.
  - rewrite <- (Math_round_integer lo). apply Math_round_monotone.
    rewrite <- (mean_constant lo Hn). apply mean_le; assumption.
  - rewrite <- (Math_round_integer hi). apply Math_round_monotone.
    rewrite <- (mean_constant hi Hn). apply mean_le; assumption.
Qed.

(** X1.  The overall progress lies within any bounds that hold for the
    completeness of every applicable item and include 0; in particular it
    is a percentage when the items hold percentages. *)
Theorem prog_within_bounds (items : list ChecklistItem) (lo hi : Z) :
  lo <= 0 <= hi ->
  (forall c, In c items -> truthy (is_applicable c) = true ->
             lo <= or_zero (completeness_percent c) <= hi) ->
  lo <= prog items <= hi.
Proof.
  intros H0 H. rewrite prog_weights.
  pose proof (weights_Forall (fun x => lo <= x <= hi) items H) as Hw.
  destruct (weights items) as [|x w] eqn:E; [simpl; exact H0|].
  cbn [List.length Nat.eqb].
  apply round_mean_bounds; [cbn [List.length]; lia|].
  apply (sum_bounds Hw).
Qed.

Lemma prog_within_bounds_witness : 0 <= prog checklist_A <= 100.
Proof.
  apply (@prog_within_bounds checklist_A 0 100); [lia|].
  intros c Hc _. simpl in Hc.
  repeat (destruct Hc as [<- | Hc]; [simpl; lia|]). contradiction.
Defined.

Lemma weights_one (c : ChecklistItem) :
  weights [c]
  = if truthy (is_applicable c) then [or_zero (completeness_percent c)] else [].
Proof.
  unfold weights, applicable. simpl.
  destruct (truthy (is_applicable c)); reflexivity.
Qed.

Lemma sum_app (a b : list Z) :
  fold_right Z.add 0 (a ++ b) = fold_right Z.add 0 a + fold_right Z.add 0 b.
Proof.
  induction a as [|x a IH]; simpl; [reflexivity | rewrite IH; lia].
Qed.

(** X2.  Raising the completeness of one item never lowers the overall
    progress. *)
Theorem prog_monotone
    (before after : list ChecklistItem) (c : ChecklistItem) (v v' : jsnum) :
  or_zero v <= or_zero v' ->
  prog (before ++ with_completeness c v :: after)
  <= prog (before ++ with_completeness c v' :: after).
Proof.
  intros Hv. rewrite !prog_weights.
  change (with_completeness c v :: after)
    with ([with_completeness c v] ++ after).
  change (with_completeness c v' :: after)
    with ([with_completeness c v'] ++ after).
  rewrite !weights_app, !weights_one. cbn [is_applicable with_completeness
    completeness_percent].
  destruct (truthy (is_applicable c)); [|lia].
  rewrite !length_app. cbn [List.length].
  set (n := (List.length (weights before) + _)%nat).
  destruct (Nat.eqb_spec n 0) as [E|E]; [subst n; lia|].
  apply Math_round_monotone, mean_le; [lia|].
  rewrite !sum_app. cbn [fold_right]. lia.
Qed.

Lemma prog_monotone_witness :
  prog ([item 1 true (Num 40)] ++ with_completeness (item 2 true Null) Null
        :: [item 3 true (Num 50)])
  <= prog ([item 1 true (Num 40)]
           ++ with_completeness (item 2 true Null) (Num 70)
           :: [item 3 true (Num 50)]).
Proof.
  apply (@prog_monotone [item 1 true (Num 40)] [item 3 true (Num 50)]
           (item 2 true Null) Null (Num 70)).
  simpl. lia.
Defined.

Lemma weights_Permutation (l l' : list ChecklistItem) :
  Permutation l l' -> Permutation (weights l) (weights l').
Proof.
  intros H. unfold weights, applicable. apply Permutation_map.
  induction H as [|x l l' H IH|x y l|l l' l'' H1 IH1 H2 IH2]; simpl.
  - constructor.
  - destruct (truthy (is_applicable x)); [constructor|]; exact IH.
  - destruct (truthy (is_applicable x)), (truthy (is_applicable y));
      try apply Permutation_refl. constructor.
  - eapply Permutation_trans; eassumption.
Qed.

Lemma sum_Permutation (w w' : list Z) :
  Permutation w w' -> fold_right Z.add 0 w = fold_right Z.add 0 w'.
Proof.
  induction 1; simpl; lia.
Qed.

(** X3.  The overall progress does not depend on the order of the items
    of the checklist. *)
Theorem prog_permutation (items items' : list ChecklistItem) :
  Permutation items items' -> prog items = prog items'.
Proof.
  intros H. apply weights_Permutation in H.
  rewrite !prog_weights.
  rewrite (sum_Permutation H), (Permutation_length H). reflexivity.
Qed.

Lemma prog_permutation_witness :
  prog [item 1 true (Num 30); item 2 false (Num 90); item 3 true (Num 80)]
  = prog [item 3 true (Num 80); item 1 true (Num 30); item 2 false (Num 90)].
Proof.
  apply prog_permutation.
  apply Permutation_sym.
  apply (Permutation_cons_append
           [item 1 true (Num 30); item 2 false (Num 90)] (item 3 true (Num 80))).
Defined.

(** *** Updates of the checklist *)










(** *** The active review *)

Lemma active_apply (pg : Page) (o : operation) :
  activeReview pg <> None -> activeReview (apply pg o) <> None.
Proof.
  intros H. destruct (activeReview pg) as [r|] eqn:Hr; [clear H|contradiction].
  destruct o; cbn [apply].
  - unfold loadAll. destruct revList as [[[|x l]|]|]; cbn [nullish activeReview];
      try (destruct full); cbn [activeReview]; rewrite ?Hr; discriminate.
  - unfold handleCreateReview. destruct post; [destruct get|];
      cbn [activeReview]; rewrite ?Hr; discriminate.
  - unfold handleChecklistUpdate. rewrite Hr.
    destruct answer; cbn [activeReview]; rewrite ?Hr; discriminate.
  - unfold change_assignee, set_checklist. rewrite Hr. discriminate.
  - unfold change_notes, set_checklist. rewrite Hr. discriminate.
  - cbn [setTab activeReview]. rewrite Hr. discriminate.
  - cbn [dismiss_error activeReview]. rewrite Hr. discriminate.
Qed.

Lemma not_offered (pg : Page) :
  activeReview pg <> None ->
  ~ In StartReviewWorkflow (rendered pg) /\ ~ In StartSectionReview (rendered pg).
Proof.
  intros H. unfold rendered.
  destruct (loading pg); [split; intros []|].
  destruct (submission pg); [|split; intros []].
  destruct (activeReview pg); [|contradiction].
  destruct (tab pg); cbn; split; intros Hin;
    repeat (destruct Hin as [Hin | Hin]; try discriminate Hin); exact Hin.
Qed.

(** X6.  Once a review is active, no reload, creation, checklist update or
    edit makes the page lose it: a review stays active, and the page never
    again offers to start a review, whatever the status of the active one
    becomes. *)
Theorem active_review_is_never_dropped
    (pg : Page) (r : ReviewRecord) (os : list operation) :
  activeReview pg = Some r ->
  (exists r', activeReview (apply_all pg os) = Some r')
  /\ ~ In StartReviewWorkflow (rendered (apply_all pg os))
  /\ ~ In StartSectionReview (rendered (apply_all pg os)).
Proof.
  intros Hr.
  assert (H : activeReview (apply_all pg os) <> None).
  { assert (H0 : activeReview pg <> None) by (rewrite Hr; discriminate).
    clear Hr. revert pg H0. unfold apply_all.
    induction os as [|o os IH]; intros pg H0; [exact H0|].
    cbn [fold_left]. apply IH. apply active_apply, H0. }
  split; [|apply not_offered, H].
  destruct (activeReview (apply_all pg os)) as [r'|]; [|contradiction].
  exists r'. reflexivity.
Qed.

Lemma active_review_witness :
  (exists r',
     activeReview
       (apply_all page_checklist
          [Load (Fulfilled true) (Fulfilled (Some [])) (Rejected "unused");
           UpdateItem 18 (Rejected "Conflict"); SelectTab tab_overview])
     = Some r')
  /\ ~ In StartReviewWorkflow
         (rendered
            (apply_all page_checklist
               [Load (Fulfilled true) (Fulfilled (Some [])) (Rejected "unused");
                UpdateItem 18 (Rejected "Conflict"); SelectTab tab_overview]))
  /\ ~ In StartSectionReview
         (rendered
            (apply_all page_checklist
               [Load (Fulfilled true) (Fulfilled (Some [])) (Rejected "unused");
                UpdateItem 18 (Rejected "Conflict"); SelectTab tab_overview])).
Proof.
  apply (@active_review_is_never_dropped page_checklist review_1). reflexivity.
Defined.

(** *** Documents *)



Lemma doc_apply_ids (s : list Document * string) (o : doc_operation) :
  map doc_id (fst (doc_apply s o))
  = (map doc_id (fst s) ++ map doc_id (uploaded [o]))%list.
Proof.
  destruct o as [file answer|docId answer]; cbn [doc_apply uploaded flat_map].
  - unfold handleUpload. destruct file, answer as [doc|m]; cbn [negb fst];
      rewrite ?app_nil_r; try reflexivity.
    rewrite map_app. reflexivity.
  - cbn [map]. rewrite app_nil_r. destruct answer as [summary|m];
      cbn [handleAiReview fst]; [|reflexivity].
    rewrite map_map. apply map_ext. intros d.
    destruct (doc_id d =? docId); reflexivity.
Qed.

Lemma doc_apply_reviewed (s : list Document * string) (o : doc_operation)
    (i : Z) :
  (exists d, In d (fst s) /\ doc_id d = i /\ ai_reviewed d = true) ->
  exists d, In d (fst (doc_apply s o)) /\ doc_id d = i /\ ai_reviewed d = true.
Proof.
  intros (d & Hd & Hi & Hr).
  destruct o as [file answer|docId answer]; cbn [doc_apply].
  - unfold handleUpload. destruct file, answer as [doc|m]; cbn [negb fst];
      exists d; repeat split; try assumption.
    apply in_or_app. left. exact Hd.
  - destruct answer as [summary|m]; cbn [handleAiReview fst];
      [|exists d; repeat split; assumption].
    exists (if doc_id d =? docId then reviewed d summary else d).
    split; [apply in_map_iff; exists d; split; [reflexivity|exact Hd]|].
    destruct (doc_id d =? docId); split; try assumption; reflexivity.
Qed.

Lemma uploaded_cons (o : doc_operation) (os : list doc_operation) :
  uploaded (o :: os) = (uploaded [o] ++ uploaded os)%list.
Proof. unfold uploaded. cbn [flat_map]. rewrite app_nil_r. reflexivity. Qed.

(** X23.  Uploads and AI reviews never remove or reorder a document: after
    any sequence of them the ids of the documents are the ids before,
    followed by the ids of the documents that the uploads answered with, in
    the order of the uploads; and a document that was reviewed is still
    reviewed. *)
Theorem documents_are_only_added
    (documents : list Document) (error : string) (os : list doc_operation) :
  let after := fst (doc_apply_all (documents, error) os) in
  map doc_id after
  = (map doc_id documents ++ map doc_id (uploaded os))%list
  /\ (forall i,
        (exists d, In d documents /\ doc_id d = i /\ ai_reviewed d = true) ->
        exists d, In d after /\ doc_id d = i /\ ai_reviewed d = true).
Proof.
  cbn zeta.
  change documents with (fst (documents, error)) at 2 3.
  generalize (documents, error). clear documents error.
  induction os as [|o os IH]; intros s.
  - split; [cbn; rewrite app_nil_r; reflexivity|intros i H; exact H].
  - change (doc_apply_all s (o :: os))
      with (doc_apply_all (doc_apply s o) os).
    destruct (IH (doc_apply s o)) as [E R]. split.
    + rewrite E, doc_apply_ids, (uploaded_cons o os), map_app, app_assoc.
      reflexivity.
    + intros i H. apply R, doc_apply_reviewed, H.
Qed.

End DetailFacts.

(** * More facts about the stream consumer *)

Module StreamExtra.

Import JS Stream Generator StreamFacts.
Local Open Scope string_scope.

(** *** Lines of a frame *)

Lemma split_newline_app (a b : string) :
  forall cur,
    split_go newline 0 cur (a ++ newline ++ b)
    = (split_go newline 0 cur a ++ split_go newline 0 "" b)%list.
Proof.
  induction a as [|c a IH]; intros cur.
  - change ("" ++ newline ++ b) with (String "010" b).
    rewrite split_go_scan, prefix_newline. reflexivity.
  - change (String c a ++ newline ++ b) with (String c (a ++ newline ++ b)).
    rewrite !split_go_scan, !prefix_newline.
    destruct (c =? "010")%char; rewrite IH; reflexivity.
Qed.

Lemma strip_spaces (n fuel : nat) :
  (n <= fuel)%nat -> strip ws_head fuel (spaces n) = "".
Proof.
  revert fuel. induction n as [|n IH]; intros fuel H.
  - destruct fuel; reflexivity.
  - destruct fuel as [|fuel]; [lia|].
    cbn [spaces strip]. change (ws_head (String " " (spaces n))) with 1%nat.
    cbn [slice]. apply IH. lia.
Qed.

Lemma length_spaces (n : nat) : String.length (spaces n) = n.
Proof. induction n as [|n IH]; simpl; [|rewrite IH]; reflexivity. Qed.

Lemma trim_spaces (n : nat) : trim (spaces n) = "".
Proof.
  unfold trim. rewrite strip_spaces by (rewrite length_spaces; lia).
  reflexivity.
Qed.

Section Lines.

Variable JSON_parse : string -> option SSEEvent.t.

Local Abbreviation part_events := (Stream.part_events JSON_parse).
Local Abbreviation line_event := (Stream.line_event JSON_parse).

(** X8.  A frame is read line by line: the events of a frame of several
    lines are the events of its lines, in order, each data line being
    parsed on its own.  A line that does not begin with the marker
    (a comment, an event or id field, a data field without the space) gives
    no event, and neither does a data line that holds only spaces, which is
    not even parsed. *)
Theorem frame_is_read_line_by_line (a b : string) :
  part_events (a ++ newline ++ b) = (part_events a ++ part_events b)%list
  /\ (forall line,
        one_line line = true -> startsWith line "data: " = false ->
        part_events line = [])
  /\ (forall n, part_events ("data: " ++ spaces n) = []).
Proof.
  split; [|split].
  - unfold Stream.part_events, split.
    rewrite split_newline_app, flat_map_app. reflexivity.
  - intros line H1 Hs. unfold Stream.part_events, split.
    rewrite (split_one_line line H1). cbn [append flat_map].
    unfold Stream.line_event. rewrite Hs. reflexivity.
  - intros n. unfold Stream.part_events, split.
    assert (H1 : one_line ("data: " ++ spaces n) = true).
    { simpl. induction n as [|n IH]; [reflexivity | exact IH]. }
    rewrite (split_one_line _ H1).
    change ("" ++ "data: " ++ spaces n) with ("data: " ++ spaces n).
    cbn [flat_map]. unfold Stream.line_event.
    assert (Hs : startsWith ("data: " ++ spaces n) "data: " = true)
      by (unfold startsWith; cbn; destruct (spaces n); reflexivity).
    rewrite Hs. cbn [negb].
    change (slice ("data: " ++ spaces n) (String.length "data: "))
      with (spaces n).
    rewrite trim_spaces. reflexivity.
Qed.

End Lines.

(** *** Runs *)

Lemma frames_one_line (s : string) :
  one_line s = true -> forall cur, frames cur s = ([], cur ++ s).
Proof.
  induction s as [|c s IH]; intros H cur.
  - simpl. rewrite append_nil_r. reflexivity.
  - simpl in H. apply andb_prop in H. destruct H as [Hc Hs].
    apply negb_true_iff in Hc.
    rewrite (frames_other cur c s Hc), (IH Hs), append_snoc. reflexivity.
Qed.

Lemma onCancel_handleEvent (event : SSEEvent.t) (u : State) :
  onCancel (handleEvent event u) = onCancel u.
Proof.
  unfold handleEvent.
  destruct event as [k m p t sid cs cp]; cbn [SSEEvent.type SSEEvent.text
    SSEEvent.message SSEEvent.percent SSEEvent.compliance_score
    SSEEvent.compliant].
  destruct k.
  - reflexivity.
  - destruct p, m as [[|? ?]|]; reflexivity.
  - destruct t as [[|? ?]|]; reflexivity.
  - destruct cs, cp; reflexivity.
  - reflexivity.
Qed.

Lemma onCancel_dispatch (events : list SSEEvent.t) :
  forall u, onCancel (perform_all (map Dispatch events) u) = onCancel u.
Proof.
  induction events as [|e events IH]; intros u; [reflexivity|].
  cbn [map perform_all fold_left]. fold (perform_all (map Dispatch events)).
  change (perform (Dispatch e) u) with (handleEvent e u).
  rewrite IH. apply onCancel_handleEvent.
Qed.

(** What an action other than the start of a run does to the text and to
    the phase. *)
Lemma perform_keeps_text (a : action) (u : State) :
  phase u <> idle -> a <> Begin ->
  (exists suffix, streamedText (perform a u) = streamedText u ++ suffix)
  /\ phase (perform a u) <> idle.
Proof.
  intros Hu Ha. destruct a as [ | | e | | m | ]; try contradiction;
    cbn [perform].
  - split; [exists ""; symmetry; apply append_nil_r | discriminate].
  - split.
    + exists (chunk_text e). apply streamedText_handleEvent.
    + rewrite phase_handleEvent.
      destruct (SSEEvent.type e); try exact Hu; discriminate.
  - split; [exists ""; symmetry; apply append_nil_r | discriminate].
  - split; [exists ""; symmetry; apply append_nil_r | discriminate].
  - split; [exists ""; symmetry; apply append_nil_r | discriminate].
Qed.

Lemma perform_all_keeps_text (acts : list action) :
  forall u,
    phase u <> idle -> Forall (fun a => a <> Begin) acts ->
    (exists suffix, streamedText (perform_all acts u) = streamedText u ++ suffix)
    /\ phase (perform_all acts u) <> idle.
Proof.
  induction acts as [|a acts IH]; intros u Hu Hacts.
  - split; [exists ""; symmetry; apply append_nil_r | exact Hu].
  - inversion Hacts as [|? ? Ha Hrest]; subst.
    destruct (@perform_keeps_text a u Hu Ha) as [[s1 H1] Hp].
    destruct (IH (perform a u) Hp Hrest) as [[s2 H2] Hq].
    cbn [perform_all fold_left]. fold (perform_all acts (perform a u)).
    split; [|exact Hq].
    exists (s1 ++ s2). rewrite H2, H1. apply append_assoc.
Qed.

Lemma onComplete_perform (a : action) (u : State) :
  onComplete (perform a u)
  = (onComplete u + completions [(phase u, a, phase (perform a u))])%nat.
Proof.
  unfold completions. cbn [filter fst snd].
  destruct a as [ | | e | | msg | ]; cbn [perform List.length];
    try (rewrite Nat.add_0_r; reflexivity).
  unfold handleEvent.
  destruct e as [k m p t sid cs cp]; cbn [SSEEvent.type SSEEvent.text
    SSEEvent.message SSEEvent.percent SSEEvent.compliance_score
    SSEEvent.compliant].
  destruct k; cbn [List.length].
  - rewrite Nat.add_0_r. reflexivity.
  - destruct p, m as [[|? ?]|]; rewrite Nat.add_0_r; reflexivity.
  - destruct t as [[|? ?]|]; rewrite Nat.add_0_r; reflexivity.
  - destruct cs, cp; cbn; rewrite Nat.add_1_r; reflexivity.
  - rewrite Nat.add_0_r. reflexivity.
Qed.

Lemma completions_app
    (t1 t2 : list (GenerationPhase * action * GenerationPhase)) :
  completions (t1 ++ t2) = (completions t1 + completions t2)%nat.
Proof.
  unfold completions. rewrite filter_app, length_app. reflexivity.
Qed.

Lemma onComplete_perform_all (acts : list action) :
  forall u,
    onComplete (perform_all acts u)
    = (onComplete u + completions (transitions u acts))%nat.
Proof.
  induction acts as [|a acts IH]; intros u.
  - cbn. rewrite Nat.add_0_r. reflexivity.
  - cbn [perform_all fold_left transitions].
    fold (perform_all acts (perform a u)).
    rewrite IH, onComplete_perform.
    change ((phase u, a, phase (perform a u)) :: transitions (perform a u) acts)
      with ([(phase u, a, phase (perform a u))]
            ++ transitions (perform a u) acts)%list.
    rewrite completions_app. lia.
Qed.

Section Runs.

Variable D : TextDecoder.
Variable JSON_parse : string -> option SSEEvent.t.

Local Abbreviation receive := (Stream.receive JSON_parse).
Local Abbreviation turn := (@Stream.turn D JSON_parse).
Local Abbreviation drain := (@Stream.drain D JSON_parse).
Local Abbreviation run := (@Stream.run D JSON_parse).
Local Abbreviation step := (@Stream.step D JSON_parse).
Local Abbreviation trace := (@Stream.trace D JSON_parse).
Local Abbreviation react := (@Stream.react D JSON_parse).

Lemma react_without_begin (c : Consumer D) (i : input) :
  phase (ui c) <> idle -> Forall (fun a => a <> Begin) (fst (react c i)).
Proof.
  intros Hp. unfold Stream.react.
  destruct i as [ | | ok status statusText body | message | value | | message].
  - destruct (phase (ui c)); try contradiction; constructor.
  - destruct (isActive (phase (ui c))); [|constructor].
    destruct (pending c); repeat constructor; discriminate.
  - destruct (pending c); try constructor.
    destruct ok, body; repeat constructor; discriminate.
  - destruct (pending c); repeat constructor; discriminate.
  - destruct (pending c); try constructor.
    destruct (turn decoder buffer value) as [events [d' b']]. cbn [fst].
    apply Forall_forall. intros a Ha. apply in_map_iff in Ha.
    destruct Ha as (e & <- & _). discriminate.
  - destruct (pending c); constructor.
  - destruct (pending c); repeat constructor; discriminate.
Qed.

Lemma run_keeps_text (ins : list input) :
  forall c : Consumer D,
    phase (ui c) <> idle ->
    (exists suffix,
       streamedText (ui (run c ins)) = streamedText (ui c) ++ suffix)
    /\ phase (ui (run c ins)) <> idle.
Proof.
  induction ins as [|i ins IH]; intros c Hc.
  - split; [exists ""; symmetry; apply append_nil_r | exact Hc].
  - cbn [Stream.run].
    destruct (@perform_all_keeps_text (fst (react c i)) (ui c) Hc
                (@react_without_begin c i Hc)) as [[s1 H1] Hp].
    destruct (IH (step c i) Hp) as [[s2 H2] Hq].
    split; [|exact Hq].
    exists (s1 ++ s2). rewrite H2. cbn [Stream.step ui]. rewrite H1.
    apply append_assoc.
Qed.

(** X9.  Once a run has started, the accumulated text only grows: whatever
    arrives (events, an error event, a failure of the transport, the end of
    the stream, a click on Cancel), the text shown before is still there,
    at the start of the text shown after. *)
Theorem streamed_text_is_never_lost (c : Consumer D) (ins : list input) :
  phase (ui c) <> idle ->
  exists suffix,
    streamedText (ui (run c ins)) = streamedText (ui c) ++ suffix.
Proof.
  intros Hc. apply (@run_keeps_text ins c Hc).
Qed.

Lemma step_quiet (c : Consumer D) (i : input) :
  phase (ui c) <> idle -> pending c = Ended -> is_cancel i = false ->
  step c i = c.
Proof.
  intros Hp Ht Hi. apply step_total. unfold Stream.react. rewrite Ht.
  destruct i; try reflexivity; try discriminate Hi.
  destruct (phase (ui c)); try reflexivity. contradiction.
Qed.

Lemma run_quiet (ins : list input) (c : Consumer D) :
  phase (ui c) <> idle -> pending c = Ended ->
  forallb (fun i => negb (is_cancel i)) ins = true ->
  run c ins = c.
Proof.
  intros Hp Ht. induction ins as [|i ins IH]; intros Hins; [reflexivity|].
  cbn [forallb] in Hins. apply andb_prop in Hins. destruct Hins as [Hi Hins].
  apply negb_true_iff in Hi.
  cbn [Stream.run]. rewrite (@step_quiet c i Hp Ht Hi). apply IH, Hins.
Qed.

(** X10.  When the stream ends while the phase is still running (no
    completed and no error event came), the phase stays running: nothing
    that can still arrive changes the state, and the one control shown is
    Cancel. *)
Theorem stream_end_without_result_keeps_running
    (u : State) (d : decoder_state D) (b : string) (ins : list input) :
  phase u = running ->
  forallb (fun i => negb (is_cancel i)) ins = true ->
  let c' := step {| ui := u; pending := AwaitRead d b |} ReadDone in
  c' = {| ui := u; pending := Ended |}
  /\ run c' ins = c'
  /\ controls (phase (ui (run c' ins))) = [CancelButton].
Proof.
  intros Hu Hins c'.
  assert (E : c' = {| ui := u; pending := Ended |}) by reflexivity.
  split; [exact E|]. rewrite E.
  rewrite run_quiet; cbn [ui pending]; try assumption; try reflexivity.
  - split; [reflexivity|]. rewrite Hu. reflexivity.
  - rewrite Hu. discriminate.
Qed.

(** X11.  A frame that the stream ends in without a blank line after it is
    never handled, even when its payload is a well-formed event: the read
    leaves it in the buffer and the end of the stream drops the buffer. *)
Theorem unfinished_frame_is_never_handled
    (u : State) (d d' : decoder_state D) (value payload : string) :
  one_line payload = true ->
  decode D d value = (d', "data: " ++ payload) ->
  fst (drain d "" [value]) = []
  /\ run {| ui := u; pending := AwaitRead d "" |} [ReadValue value; ReadDone]
     = {| ui := u; pending := Ended |}.
Proof.
  intros H1 Hd.
  assert (E : turn d "" value = ([], (d', "data: " ++ payload))).
  { rewrite turn_receive, Hd. cbn [fst snd]. rewrite receive_frames.
    change ("" ++ "data: " ++ payload) with ("data: " ++ payload).
    rewrite (@frames_one_line ("data: " ++ payload) H1 ""). reflexivity. }
  split.
  - rewrite drain_one, E. reflexivity.
  - cbn [Stream.run]. rewrite step_read, E. reflexivity.
Qed.

(** *** Callbacks *)

Lemma cancelled_calls_reading (p : GenerationPhase) :
  reading p = true -> cancelled_calls p = 0%nat.
Proof. destruct p; try discriminate; reflexivity. Qed.

Lemma onCancel_step (c : Consumer D) (i : input) :
  coherent c ->
  onCancel (ui c) = cancelled_calls (phase (ui c)) ->
  onCancel (ui (step c i)) = cancelled_calls (phase (ui (step c i))).
Proof.
  unfold coherent, Stream.step, Stream.react.
  destruct c as [u t]. cbn [ui pending]. intros Hc H.
  destruct i as [ | | ok status statusText body | message | value | | message].
  - destruct (phase u) eqn:E; cbn [fst perform_all fold_left];
      rewrite ?E; exact H.
  - destruct (isActive (phase u)) eqn:E;
      [|cbn [fst perform_all fold_left]; exact H].
    assert (H0 : onCancel u = 0%nat)
      by (rewrite H; destruct (phase u); try discriminate E; reflexivity).
    destruct t; cbn; rewrite H0; reflexivity.
  - destruct t; cbn [fst perform_all fold_left]; try exact H.
    rewrite Hc in H. destruct ok, body; cbn; exact H.
  - destruct t; cbn [fst perform_all fold_left]; try exact H.
    rewrite Hc in H. cbn. exact H.
  - destruct t; cbn [fst perform_all fold_left]; try exact H.
    destruct (turn decoder buffer value) as [events [d' b']]. cbn [fst].
    rewrite onCancel_dispatch, H, !cancelled_calls_reading;
      [reflexivity | apply reading_dispatch, Hc | exact Hc].
  - destruct t; cbn [fst perform_all fold_left]; exact H.
  - destruct t; cbn [fst perform_all fold_left]; try exact H.
    cbn. rewrite H. apply cancelled_calls_reading, Hc.
Qed.

(** X12.  In every run, [onCancel] has been called once if the phase is
    cancelled and never otherwise: the owner is told of a cancellation
    exactly once, and of nothing else. *)
Theorem onCancel_is_called_once_on_cancel (ins : list input) :
  onCancel (ui (run (init D) ins))
  = cancelled_calls (phase (ui (run (init D) ins))).
Proof.
  assert (H : forall c : Consumer D,
            coherent c ->
            onCancel (ui c) = cancelled_calls (phase (ui c)) ->
            onCancel (ui (run c ins))
            = cancelled_calls (phase (ui (run c ins)))).
  { induction ins as [|i ins IH]; intros c Hc H; [exact H|].
    cbn [Stream.run]. apply IH.
    - apply coherent_step, Hc.
    - apply onCancel_step; assumption. }
  apply H; [apply coherent_init | reflexivity].
Qed.

(** X13.  [onComplete] is called once for every completed event that is
    handled: the calls made during a run are as many as the completed
    events among its actions, be it none, one or several. *)
Theorem onComplete_counts_completed_events (c : Consumer D) (ins : list input) :
  onComplete (ui (run c ins))
  = (onComplete (ui c) + completions (trace c ins))%nat.
Proof.
  revert c. induction ins as [|i ins IH]; intros c.
  - cbn. rewrite Nat.add_0_r. reflexivity.
  - cbn [Stream.run Stream.trace]. rewrite IH, completions_app.
    cbn [Stream.step ui]. rewrite onComplete_perform_all. lia.
Qed.

(** *** Failures of the transport *)

Lemma or_else_not_empty (m : string) : or_else m "Unknown error" <> "".
Proof. destruct m; discriminate. Qed.

(** X14.  A failure of the transport (the request is rejected, the
    response is not ok or has no body, a read is rejected) ends the run in
    the error phase with an error message that is not empty; nothing that
    arrives afterwards changes the state, and the control shown is Retry. *)
Theorem transport_failure_ends_the_run
    (c : Consumer D) (i : input) (ins : list input) :
  fails (pending c) i = true ->
  let c' := step c i in
  phase (ui c') = error
  /\ errorMessage (ui c') <> ""
  /\ pending c' = Ended
  /\ run c' ins = c'
  /\ controls (phase (ui c')) = [RetryButton].
Proof.
  intros Hf c'.
  assert (H : phase (ui c') = error /\ errorMessage (ui c') <> ""
              /\ pending c' = Ended).
  { subst c'. unfold Stream.step, Stream.react. unfold fails in Hf.
    destruct i as [ | | ok status statusText body | message | value | | message];
      destruct (pending c); try discriminate Hf.
    - destruct ok, body; try discriminate Hf; cbn;
        repeat split; try discriminate.
    - cbn. repeat split. apply or_else_not_empty.
    - cbn. repeat split. apply or_else_not_empty. }
  destruct H as (Hp & Hm & Ht).
  repeat split; try assumption.
  - clear Hf. induction ins as [|j ins IH]; [reflexivity|].
    cbn [Stream.run]. rewrite step_total; [exact IH|].
    unfold Stream.react. rewrite Ht, Hp. destruct j; reflexivity.
  - rewrite Hp. reflexivity.
Qed.

(** *** Before the start *)

Lemma step_init (i : input) :
  i <> ClickGenerate -> step (init D) i = init D.
Proof.
  intros Hi. destruct i; try reflexivity. contradiction.
Qed.

(** X15.  Nothing happens to a component before Generate is clicked: as
    long as the phase is idle, the state is the state of the mounted
    component, whatever has arrived. *)
Theorem nothing_happens_before_generate (ins : list input) :
  phase (ui (run (init D) ins)) = idle -> run (init D) ins = init D.
Proof.
  induction ins as [|i ins IH]; intros H; [reflexivity|].
  cbn [Stream.run] in H |- *.
  destruct i; try (rewrite step_init in H |- * by discriminate; exact (IH H)).
  exfalso. revert H.
  apply (@run_keeps_text ins (step (init D) ClickGenerate)). discriminate.
Qed.

End Runs.

(** *** Sample runs *)

Lemma streamed_text_witness :
  phase (ui after_started) <> idle
  /\ exists suffix,
       streamedText
         (ui (run sample_parse after_started
                  [ReadValue (frame (json_chunk "Sec")); ReadRejected "reset"]))
       = streamedText (ui after_started) ++ suffix.
Proof.
  split; [discriminate|].
  apply (@streamed_text_is_never_lost ascii_decoder sample_parse after_started).
  discriminate.
Defined.

Lemma stream_end_witness :
  phase (ui after_started) = running
  /\ (let ins := [ReadValue (frame json_completed); ReadDone; ClickGenerate] in
      let c' := step sample_parse
                     {| ui := ui after_started;
                        pending := @AwaitRead ascii_decoder tt "" |}
                     ReadDone in
      c' = {| ui := ui after_started; pending := Ended |}
      /\ run sample_parse c' ins = c'
      /\ controls (phase (ui (run sample_parse c' ins))) = [CancelButton]).
Proof.
  split; [reflexivity|].
  apply (@stream_end_without_result_keeps_running ascii_decoder sample_parse
           (ui after_started) tt ""
           [ReadValue (frame json_completed); ReadDone; ClickGenerate]);
    reflexivity.
Defined.

Lemma unfinished_frame_witness :
  one_line json_completed = true
  /\ sample_parse json_completed = Some (completed_event 92 true)
  /\ fst (@drain ascii_decoder sample_parse tt ""
                ["data: " ++ json_completed]) = []
  /\ run sample_parse
         {| ui := ui after_started;
            pending := @AwaitRead ascii_decoder tt "" |}
         [ReadValue ("data: " ++ json_completed); ReadDone]
     = {| ui := ui after_started; pending := Ended |}.
Proof.
  split; [reflexivity|]. split; [reflexivity|].
  apply (@unfinished_frame_is_never_handled ascii_decoder sample_parse
           (ui after_started) tt tt ("data: " ++ json_completed)
           json_completed);
    reflexivity.
Defined.

Lemma transport_failure_witness :
  fails (pending after_started) (ReadRejected "") = true
  /\ (let c' := step sample_parse after_started (ReadRejected "") in
      phase (ui c') = error
      /\ errorMessage (ui c') <> ""
      /\ pending c' = Ended
      /\ run sample_parse c' [ReadValue (frame json_completed); ReadDone] = c'
      /\ controls (phase (ui c')) = [RetryButton]).
Proof.
  split; [reflexivity|].
  apply (@transport_failure_ends_the_run ascii_decoder sample_parse
           after_started (ReadRejected "")
           [ReadValue (frame json_completed); ReadDone]).
  reflexivity.
Defined.

Lemma before_generate_witness :
  let ins := [ClickCancel; ReadValue (frame json_started);
              FetchRejected "offline"; ReadDone] in
  phase (ui (run sample_parse (init ascii_decoder) ins)) = idle
  /\ run sample_parse (init ascii_decoder) ins = init ascii_decoder.
Proof.
  split; [reflexivity|].
  apply (@nothing_happens_before_generate ascii_decoder sample_parse).
  reflexivity.
Defined.

(** *** The progress bar *)

(** X16.  The width of the progress bar is a percentage whatever percent
    the events carry: it is the percent itself between 0 and 100, 0 below
    and 100 above; and the bar is green exactly from 100 on. *)
Theorem progress_bar_is_clamped (percent : Z) :
  (0 <= clampedPercent percent <= 100)%Z
  /\ ((0 <= percent <= 100)%Z -> clampedPercent percent = percent)
  /\ ((percent <= 0)%Z -> clampedPercent percent = 0%Z)
  /\ ((100 <= percent)%Z <-> colorClass percent = "bg-green-500").
Proof.
  unfold colorClass, clampedPercent.
  repeat split; try lia.
  - intros H. replace (Z.min 100 (Z.max 0 percent)) with 100%Z by lia.
    reflexivity.
  - intros H.
    destruct (Z.eqb_spec (Z.min 100 (Z.max 0 percent)) 100) as [E|E]; [lia|].
    destruct (Z.min 100 (Z.max 0 percent) >=? 70)%Z; discriminate H.
Qed.

End StreamExtra.

(** * Facts about the dashboard, the submission card, the form and the
      compliance checker *)

Module PagesFacts.

Import JS Review.
Local Open Scope string_scope.

(** *** The tiles of the dashboard *)

Lemma with_status_cons (x : Dashboard.Submission)
    (l : list Dashboard.Submission) (v : string) :
  Dashboard.with_status (x :: l) v
  = ((if (Dashboard.status x =? v)%string then 1 else 0) + Dashboard.with_status l v)%nat.
Proof.
  unfold Dashboard.with_status. cbn [filter].
  destruct (Dashboard.status x =? v); reflexivity.
Qed.

Lemma uncounted_cons (x : Dashboard.Submission)
    (l : list Dashboard.Submission) :
  Dashboard.uncounted (x :: l)
  = if negb ((Dashboard.status x =? "draft")
             || (Dashboard.status x =? "generating")
             || (Dashboard.status x =? "review_pending")
             || (Dashboard.status x =? "approved"))
    then x :: Dashboard.uncounted l
    else Dashboard.uncounted l.
Proof. reflexivity. Qed.

Lemma tiles_sum (submissions : list Dashboard.Submission) :
  List.length submissions
  = (Dashboard.with_status submissions "draft"
     + Dashboard.with_status submissions "generating"
     + Dashboard.with_status submissions "review_pending"
     + Dashboard.with_status submissions "approved"
     + List.length (Dashboard.uncounted submissions))%nat.
Proof.
  induction submissions as [|x l IH]; [reflexivity|].
  rewrite !with_status_cons, uncounted_cons. cbn [List.length].
  destruct (String.eqb_spec (Dashboard.status x) "draft") as [E|_];
    [rewrite ?E; cbn; lia|].
  destruct (String.eqb_spec (Dashboard.status x) "generating") as [E|_];
    [rewrite ?E; cbn; lia|].
  destruct (String.eqb_spec (Dashboard.status x) "review_pending") as [E|_];
    [rewrite ?E; cbn; lia|].
  destruct (String.eqb_spec (Dashboard.status x) "approved") as [E|_];
    [rewrite ?E; cbn; lia|].
  cbn. lia.
Qed.

Lemma uncounted_nil (submissions : list Dashboard.Submission) :
  Dashboard.uncounted submissions = []
  <-> forall x, In x submissions ->
        In (Dashboard.status x)
           ["draft"; "generating"; "review_pending"; "approved"].
Proof.
  induction submissions as [|x l IH].
  - split; [intros _ y []|reflexivity].
  - rewrite uncounted_cons.
    destruct (String.eqb_spec (Dashboard.status x) "draft") as [E1|E1];
    [|destruct (String.eqb_spec (Dashboard.status x) "generating") as [E2|E2];
    [|destruct (String.eqb_spec (Dashboard.status x) "review_pending")
        as [E3|E3];
    [|destruct (String.eqb_spec (Dashboard.status x) "approved") as [E4|E4]]]];
    cbn [negb orb].
    5: { split; [discriminate|]. intros H.
         destruct (H x (or_introl eq_refl)) as [E|[E|[E|[E|[]]]]];
           symmetry in E; contradiction. }
    all: rewrite IH; split;
      [ intros H y [<-|Hy]; [|apply H, Hy]
      | intros H y Hy; apply H; right; exact Hy ].
    + rewrite E1. left. reflexivity.
    + rewrite E2. right. left. reflexivity.
    + rewrite E3. do 2 right. left. reflexivity.
    + rewrite E4. do 3 right. left. reflexivity.
Qed.

(** X17.  The four status tiles of the dashboard count disjoint sets of
    submissions: their sum is the total less the submissions of any other
    status, so the tiles add up to the total exactly when every submission
    is a draft, generating, pending review or approved. *)
Theorem status_tiles_add_up_to_total
    (submissions : list Dashboard.Submission)
    (adverseEvents : list Dashboard.AdverseEvent) :
  let s := Dashboard.stats submissions adverseEvents in
  Dashboard.total s
  = (Dashboard.draft s + Dashboard.generating s + Dashboard.reviewPending s
     + Dashboard.approved s
     + List.length (Dashboard.uncounted submissions))%nat
  /\ ((Dashboard.draft s + Dashboard.generating s + Dashboard.reviewPending s
       + Dashboard.approved s)%nat = Dashboard.total s
      <-> forall x, In x submissions ->
            In (Dashboard.status x)
               ["draft"; "generating"; "review_pending"; "approved"]).
Proof.
  cbn zeta. cbn [Dashboard.stats Dashboard.total Dashboard.draft
                 Dashboard.generating Dashboard.reviewPending
                 Dashboard.approved].
  split; [apply tiles_sum|].
  rewrite <- uncounted_nil.
  pose proof (tiles_sum submissions) as H.
  split; intros E.
  - apply length_zero_iff_nil. lia.
  - rewrite E in H. cbn [List.length] in H. lia.
Qed.

(** *** The labels of a status *)

Lemma replace_underscores_fixed (s : string) :
  Dashboard.replace_underscores s = s <-> Dashboard.underscores s = 0%nat.
Proof.
  induction s as [|c r IH]; [split; reflexivity|].
  cbn [Dashboard.replace_underscores Dashboard.underscores].
  destruct (Ascii.eqb_spec c "_") as [E|E].
  - split; [|discriminate]. intros H. injection H as H _. subst c.
    discriminate H.
  - cbn [Nat.add]. rewrite <- IH. split; intros H.
    + injection H as H. exact H.
    + rewrite H. reflexivity.
Qed.

Lemma replace_agree (s : string) :
  Dashboard.replace_underscore s = Dashboard.replace_underscores s
  <-> (Dashboard.underscores s <= 1)%nat.
Proof.
  induction s as [|c r IH]; [split; [intros _; cbn; lia|reflexivity]|].
  cbn [Dashboard.replace_underscore Dashboard.replace_underscores
       Dashboard.underscores].
  destruct (Ascii.eqb_spec c "_") as [E|E].
  - pose proof (replace_underscores_fixed r) as F. split; intros H.
    + injection H as H. symmetry in H. apply F in H. lia.
    + f_equal. symmetry. apply F. lia.
  - cbn [Nat.add]. rewrite <- IH. split; intros H.
    + injection H as H. exact H.
    + rewrite H. reflexivity.
Qed.

Lemma underscores_replace_first (s : string) :
  Dashboard.underscores (Dashboard.replace_underscore s)
  = (Dashboard.underscores s - 1)%nat.
Proof.
  induction s as [|c r IH]; [reflexivity|].
  cbn [Dashboard.replace_underscore Dashboard.underscores].
  destruct (Ascii.eqb_spec c "_") as [E|E].
  - cbn. lia.
  - cbn [Dashboard.underscores]. destruct (Ascii.eqb_spec c "_"); [contradiction|].
    cbn [Nat.add]. exact IH.
Qed.

Lemma underscores_replace_all (s : string) :
  Dashboard.underscores (Dashboard.replace_underscores s) = 0%nat.
Proof.
  induction s as [|c r IH]; [reflexivity|].
  cbn [Dashboard.replace_underscores Dashboard.underscores].
  destruct (Ascii.eqb_spec c "_") as [E|E].
  - cbn. exact IH.
  - destruct (Ascii.eqb_spec c "_"); [contradiction|]. exact IH.
Qed.

Section Labels.

Variable toUpperCase : string -> string.

(** X18.  The status badge of the submission card replaces the first
    underscore only, the badge of the detail page replaces all of them: the
    card leaves one underscore less than the status has, the page none, and
    the two replacements (so the two labels) agree exactly on a status with
    at most one underscore. *)
Theorem card_label_replaces_one_underscore (s : string) :
  (Dashboard.replace_underscore s = Dashboard.replace_underscores s
   <-> (Dashboard.underscores s <= 1)%nat)
  /\ ((Dashboard.underscores s <= 1)%nat ->
      Dashboard.card_label toUpperCase s = Dashboard.page_label toUpperCase s)
  /\ Dashboard.underscores (Dashboard.replace_underscore s)
     = (Dashboard.underscores s - 1)%nat
  /\ Dashboard.underscores (Dashboard.replace_underscores s) = 0%nat.
Proof.
  split; [apply replace_agree|]. split.
  - intros H. unfold Dashboard.card_label, Dashboard.page_label.
    f_equal. apply replace_agree, H.
  - split; [apply underscores_replace_first|apply underscores_replace_all].
Qed.

End Labels.

(** *** The colour of the progress bar *)

(** X19.  The card and the detail page colour a progress alike, whatever
    the number; the colour is red for 0 only, the darkest green from 100
    on, and a negative progress is orange like a progress of 1 to 25. *)
Theorem card_and_page_colour_alike (pct : Z) :
  Dashboard.card_progressColor pct = Detail.progressColor pct
  /\ (Detail.progressColor pct = "#ef4444" <-> pct = 0%Z)
  /\ (Detail.progressColor pct = "#16a34a" <-> (100 <= pct)%Z)
  /\ ((pct < 0)%Z -> Detail.progressColor pct = Detail.progressColor 1).
Proof.
  split; [reflexivity|].
  unfold Detail.progressColor.
  destruct (Z.eqb_spec pct 0) as [E0|E0];
    [subst pct; repeat split; try reflexivity; try discriminate; lia|].
  destruct (Z.ltb_spec pct 26) as [E1|E1];
    [repeat split; try reflexivity; try discriminate; try lia|].
  destruct (Z.ltb_spec pct 51) as [E2|E2];
    [repeat split; try reflexivity; try discriminate; try lia|].
  destruct (Z.ltb_spec pct 76) as [E3|E3];
    [repeat split; try reflexivity; try discriminate; try lia|].
  destruct (Z.ltb_spec pct 100) as [E4|E4];
    repeat split; try reflexivity; try discriminate; try lia.
Qed.

(** *** The submission form *)

Lemma get_spread_with (fd : Submit.FormData) (name value k : string) :
  Submit.get (Submit.spread_with fd name value) k
  = if name =? k then Some value else Submit.get fd k.
Proof.
  induction fd as [|[k0 v0] rest IH]; [reflexivity|].
  cbn [Submit.spread_with Submit.get].
  destruct (String.eqb_spec k0 name) as [E|E].
  - subst k0. cbn [Submit.get]. destruct (name =? k); reflexivity.
  - cbn [Submit.get]. rewrite IH.
    destruct (String.eqb_spec k0 k) as [F|F]; [|reflexivity].
    subst k0. destruct (String.eqb_spec name k) as [G|G]; [|reflexivity].
    symmetry in G. contradiction.
Qed.

Lemma keys_spread_with (fd : Submit.FormData) (name value : string) :
  In name (map fst fd) ->
  map fst (Submit.spread_with fd name value) = map fst fd.
Proof.
  induction fd as [|[k0 v0] rest IH]; [intros []|].
  intros H. cbn [Submit.spread_with].
  destruct (String.eqb_spec k0 name) as [E|E]; [reflexivity|].
  cbn [map fst]. f_equal. apply IH.
  destruct H as [H|H]; [contradiction|exact H].
Qed.

Lemma typing_cons (st : Submit.State) (c : string * string)
    (changes : list (string * string)) :
  Submit.typing st (c :: changes)
  = Submit.typing (Submit.handleChange st (fst c) (snd c)) changes.
Proof. reflexivity. Qed.

Lemma get_typing (changes : list (string * string)) (st : Submit.State)
    (name : string) :
  Submit.get (Submit.formData (Submit.typing st changes)) name
  = match Submit.typed_last changes name with
    | Some v => Some v
    | None => Submit.get (Submit.formData st) name
    end.
Proof.
  revert st. induction changes as [|[k v] rest IH]; intros st; [reflexivity|].
  rewrite typing_cons, IH. cbn [Submit.typed_last fst snd].
  destruct (Submit.typed_last rest name); [reflexivity|].
  cbn [Submit.handleChange Submit.formData]. rewrite get_spread_with.
  destruct (k =? name); reflexivity.
Qed.

Lemma typing_keeps (changes : list (string * string)) (st : Submit.State) :
  Submit.generating (Submit.typing st changes) = Submit.generating st
  /\ Submit.error (Submit.typing st changes) = Submit.error st.
Proof.
  revert st. induction changes as [|c rest IH]; intros st; [split; reflexivity|].
  rewrite typing_cons. destruct (IH (Submit.handleChange st (fst c) (snd c)))
    as [-> ->]. split; reflexivity.
Qed.

Lemma keys_typing (changes : list (string * string)) (st : Submit.State) :
  (forall c, In c changes -> In (fst c) (map fst (Submit.formData st))) ->
  map fst (Submit.formData (Submit.typing st changes))
  = map fst (Submit.formData st).
Proof.
  revert st. induction changes as [|c rest IH]; intros st H; [reflexivity|].
  assert (K : map fst (Submit.formData (Submit.handleChange st (fst c) (snd c)))
              = map fst (Submit.formData st)).
  { apply keys_spread_with, H. left. reflexivity. }
  rewrite typing_cons, IH; [exact K|].
  intros c' Hc'. rewrite K. apply H. right. exact Hc'.
Qed.

(** X20.  After any sequence of changes, every field of the form holds the
    value typed last for it, and the value it had before if none was typed;
    changes to fields of the form add no field and reorder none; and typing
    changes neither the error nor the generating flag. *)
Theorem form_holds_the_last_typed_value
    (st : Submit.State) (changes : list (string * string)) (name : string) :
  Submit.get (Submit.formData (Submit.typing st changes)) name
  = match Submit.typed_last changes name with
    | Some v => Some v
    | None => Submit.get (Submit.formData st) name
    end
  /\ ((forall c, In c changes -> In (fst c) (map fst (Submit.formData st))) ->
      map fst (Submit.formData (Submit.typing st changes))
      = map fst (Submit.formData st))
  /\ Submit.generating (Submit.typing st changes) = Submit.generating st
  /\ Submit.error (Submit.typing st changes) = Submit.error st.
Proof.
  split; [apply get_typing|]. split; [apply keys_typing|apply typing_keeps].
Qed.

(** X21.  A submission of the form as typed keeps what was typed.  When it
    fails, be it at the creation or at the generation, the page is not left:
    there is an error message that is not empty, and the button is enabled
    again exactly when the device name typed last is not empty.  The router
    is sent to a submission only when both calls succeeded, to the one that
    was created, and the button stays disabled. *)
Theorem failed_submission_keeps_the_form
    (changes : list (string * string)) (create : response Z)
    (generate : response unit) :
  let st := Submit.typing Submit.initial changes in
  let r := Submit.handleSubmit st create generate in
  Submit.formData (fst r) = Submit.formData st
  /\ (snd r = None ->
      (exists m, Submit.error (fst r) = Some m /\ m <> "")
      /\ Submit.submit_disabled (fst r)
         = Submit.falsy (Submit.typed_last changes "device_name"))
  /\ (forall i, snd r = Some i ->
      create = Fulfilled i /\ generate = Fulfilled tt
      /\ Submit.error (fst r) = None
      /\ Submit.submit_disabled (fst r) = true).
Proof.
  cbn zeta.
  assert (F : Submit.falsy (Submit.get (Submit.formData
                 (Submit.typing Submit.initial changes)) "device_name")
              = Submit.falsy (Submit.typed_last changes "device_name")).
  { rewrite get_typing.
    destruct (Submit.typed_last changes "device_name"); reflexivity. }
  assert (M : forall m, or_else m "Failed to create submission" <> "").
  { intros m. destruct m; discriminate. }
  destruct create as [i|m]; [destruct generate as [[]|m]|];
    cbn [Submit.handleSubmit fst snd]; (split; [reflexivity|]); split;
    try discriminate.
  - intros j H. injection H as <-. repeat split.
  - intros _. split; [eexists; split; [reflexivity|apply M]|]. exact F.
  - intros _. split; [eexists; split; [reflexivity|apply M]|]. exact F.
Qed.

(** *** The compliance checker *)

Lemma runs_snoc (st : Compliance.State)
    (answers : list (response Compliance.Result))
    (a : response Compliance.Result) :
  Compliance.runs st (answers ++ [a])
  = Compliance.runComplianceCheck (Compliance.runs st answers) a.
Proof. unfold Compliance.runs. rewrite fold_left_app. reflexivity. Qed.

Lemma result_runs (answers : list (response Compliance.Result))
    (st : Compliance.State) :
  Compliance.result (Compliance.runs st answers)
  = match Compliance.last_fulfilled answers with
    | Some d => Some d
    | None => Compliance.result st
    end.
Proof.
  revert st. induction answers as [|a rest IH]; intros st; [reflexivity|].
  change (Compliance.runs st (a :: rest))
    with (Compliance.runs (Compliance.runComplianceCheck st a) rest).
  rewrite IH. cbn [Compliance.last_fulfilled].
  destruct (Compliance.last_fulfilled rest); [reflexivity|].
  destruct a; reflexivity.
Qed.

(** X22.  After any number of checks the result shown is the answer of the
    last check that succeeded, and the one shown before if none did; a
    check that fails after one that succeeded leaves the older result on
    the screen beside the error.  No run is left loading, and once there is
    a result the button is Rerun Check for good. *)
Theorem result_is_the_last_successful_check
    (st : Compliance.State) (answers : list (response Compliance.Result)) :
  Compliance.result (Compliance.runs st answers)
  = match Compliance.last_fulfilled answers with
    | Some d => Some d
    | None => Compliance.result st
    end
  /\ (answers <> [] -> Compliance.loading (Compliance.runs st answers) = false)
  /\ (Compliance.result st <> None ->
      Compliance.buttons (Compliance.runs st answers) = [Compliance.RerunCheck])
  /\ (forall d m,
        let st' := Compliance.runs st (answers ++ [Fulfilled d; Rejected m]) in
        Compliance.result st' = Some d
        /\ Compliance.error st' <> None
        /\ Compliance.buttons st' = [Compliance.RerunCheck]).
Proof.
  split; [apply result_runs|]. split; [|split].
  - intros H. destruct (exists_last H) as (rest & a & ->).
    rewrite runs_snoc. destruct a; reflexivity.
  - intros H. unfold Compliance.buttons. rewrite result_runs.
    destruct (Compliance.last_fulfilled answers); [reflexivity|].
    destruct (Compliance.result st); [reflexivity|contradiction].
  - intros d m.
    change (answers ++ [Fulfilled d; Rejected m])%list
      with (answers ++ ([Fulfilled d] ++ [Rejected m]))%list.
    rewrite app_assoc, !runs_snoc. cbn. repeat split. discriminate.
Qed.

End PagesFacts.
